(** * nagios-plugin-gcp-resource: metric reduction and threshold evaluation

    A shallow embedding of [nagios-plugin-gcp-resource.go].

    - Go's [float64] is the kernel's binary64 [float]; its operations are
      specified by [FloatAxioms] against [SpecFloat].  NaN payloads are not
      distinguished.
    - Go's [int] and [int64] are [Z].
    - [fmt.Println] followed by [os.Exit] is the record [Exited]; a run-time
      panic (index out of range) is the constructor [Panic].
    - The iterator returned by [ListTimeSeries] is the list of what successive
      calls of [Next] return; the end of the list is [iterator.Done].
    - [main] is modelled from the creation of the iterator on, without the
      diagnostic lines of [verbose]: its [stdout] is what [output] writes.
      [program] is the whole of [main], from the parsing of the options on,
      with the diagnostic lines. *)

From Stdlib Require Import ZArith List String Ascii Bool Lia Permutation.
From Stdlib Require Import Floats DecimalString.
Import ListNotations.

Local Open Scope string_scope.
Local Open Scope Z_scope.

(** ** The parts of the Go language and of [fmt] the program relies on *)

Module Go.

(** [float64(i)] for an integer [i]: round to nearest, ties to even. *)
Definition float64_of_int (i : Z) : float :=
  SF2Prim (binary_normalize prec emax i 0 false).

(** What [int(f)] gives where the value is not representable (NaN,
    infinities, magnitude beyond 63 bits).  The language leaves it to
    the implementation; this is the amd64 answer. *)
Definition int_indefinite : Z := - 2 ^ 63.

(** [int(f)]: the fraction is discarded (truncation towards zero). *)
Definition int_of_float64 (f : float) : Z :=
  match Prim2SF f with
  | S754_zero _ => 0
  | S754_finite s m e =>
      let a := if 0 <=? e then Z.pos m * 2 ^ e else Z.pos m / 2 ^ (- e) in
      let z := if s then - a else a in
      if (- 2 ^ 63 <=? z) && (z <? 2 ^ 63) then z else int_indefinite
  | S754_infinity _ | S754_nan => int_indefinite
  end.

(** The verb [%d] on an [int]. *)
Definition fmt_d (z : Z) : string := NilZero.string_of_int (Z.to_int z).

(** [n] written with exactly six digits, for [0 <= n < 10^6]. *)
Definition six_digits (n : Z) : string :=
  match fmt_d (10 ^ 6 + n) with
  | String _ s => s
  | EmptyString => EmptyString
  end.

(** [m * 2^e * 10^6] rounded to the nearest integer, ties to even. *)
Definition micro_units (m : positive) (e : Z) : Z :=
  if 0 <=? e then Z.pos m * 2 ^ e * 10 ^ 6
  else
    let d := 2 ^ (- e) in
    let q := (Z.pos m * 10 ^ 6) / d in
    let r := (Z.pos m * 10 ^ 6) mod d in
    match 2 * r ?= d with
    | Lt => q
    | Gt => q + 1
    | Eq => if Z.even q then q else q + 1
    end.

(** The verb [%f] on a [float64]: six digits after the point. *)
Definition fmt_f (f : float) : string :=
  match Prim2SF f with
  | S754_nan => "NaN"
  | S754_infinity false => "+Inf"
  | S754_infinity true => "-Inf"
  | S754_zero s => (if s then "-" else "") ++ "0.000000"
  | S754_finite s m e =>
      let n := micro_units m e in
      (if s then "-" else "") ++ fmt_d (n / 10 ^ 6) ++ "." ++ six_digits (n mod 10 ^ 6)
  end.

Definition newline : string := String (ascii_of_nat 10) EmptyString.

(** [fmt.Println(s)] on a string: the string and a line terminator. *)
Definition Println (s : string) : string := s ++ newline.

End Go.

(** ** The monitoring API types, as far as the program reads them *)

Module monitoringpb.

(** [MetricDescriptor_ValueType] and its [String] method. *)
Inductive ValueType :=
| VALUE_TYPE_UNSPECIFIED | BOOL | INT64 | DOUBLE | STRING | DISTRIBUTION | MONEY.

Definition ValueType_String (t : ValueType) : string :=
  match t with
  | VALUE_TYPE_UNSPECIFIED => "VALUE_TYPE_UNSPECIFIED"
  | BOOL => "BOOL"
  | INT64 => "INT64"
  | DOUBLE => "DOUBLE"
  | STRING => "STRING"
  | DISTRIBUTION => "DISTRIBUTION"
  | MONEY => "MONEY"
  end.

Record Distribution := { Mean : float }.

(** The one-of carried by a [TypedValue]; [ValueNotSet] is the unset one-of.
    A [*Distribution] may be nil. *)
Inductive TypedValue :=
| ValueNotSet
| BoolValue (b : bool)
| Int64Value (i : Z)
| DoubleValue (d : float)
| StringValue (s : string)
| DistributionValue (d : option Distribution).

Record Point := { Value : option TypedValue }.

(** The generated getters accept a nil receiver ([None]) and answer the zero
    value when the field is absent or the one-of holds another case. *)
Definition GetValue (p : option Point) : option TypedValue :=
  match p with
  | Some x => Value x
  | None => None
  end.

Definition GetInt64Value (v : option TypedValue) : Z :=
  match v with
  | Some (Int64Value i) => i
  | _ => 0
  end.

Definition GetDoubleValue (v : option TypedValue) : float :=
  match v with
  | Some (DoubleValue d) => d
  | _ => 0%float
  end.

Definition GetDistributionValue (v : option TypedValue) : option Distribution :=
  match v with
  | Some (DistributionValue d) => d
  | _ => None
  end.

Definition GetMean (d : option Distribution) : float :=
  match d with
  | Some x => Mean x
  | None => 0%float
  end.

(** One [TimeSeries] of a response.  [Labels] is the resource's label map,
    listed in the order in which this run's [range] visits its keys (the
    language does not fix that order); keys are distinct. *)
Record TimeSeries := {
  ValueType_ : ValueType;
  Points : list (option Point);
  Labels : list (string * string)
}.

End monitoringpb.
Import monitoringpb.

(** ** The program *)

(** The fields of [Options] read after the request is built. *)
Record Options := {
  Evalution : string;
  Critical : float;
  Warning : float
}.

Record Metric := {
  Name : string;
  Value : float
}.

(** The status constants, [iota] from zero. *)
Definition OK : Z := 0.
Definition WARNING : Z := 1.
Definition CRITICAL : Z := 2.
Definition UNKNOWN : Z := 3.

(** What the process has done when [output] is over: the text written to
    standard output and the code passed to [os.Exit]. *)
Record Exited := {
  stdout : string;
  exit_code : Z
}.

(** The prefix chosen by the [switch] of [output]. *)
Definition status_prefix (status : Z) : string :=
  if status =? OK then "OK - "
  else if status =? WARNING then "WARNING - "
  else if status =? CRITICAL then "CRITICAL - "
  else if status =? UNKNOWN then "UNKNOWN - "
  else "UNKNOWN - ".

Definition output (status : Z) (message : string) : Exited :=
  let message := status_prefix status ++ message in
  {| stdout := Go.Println message; exit_code := status |}.

Definition getFloatValue (valueType : string) (typedValue : option TypedValue) : float :=
  if String.eqb valueType "INT64" then Go.float64_of_int (GetInt64Value typedValue)
  else if String.eqb valueType "DOUBLE" then GetDoubleValue typedValue
  else if String.eqb valueType "DISTRIBUTION" then GetMean (GetDistributionValue typedValue)
  else 0%float.

(** A computation that either goes on with a value, has ended the process
    through [output], or has panicked. *)
Inductive Run (A : Type) :=
| Continue (a : A)
| Exit (e : Exited)
| Panic.
Arguments Continue {A} a.
Arguments Exit {A} e.
Arguments Panic {A}.

Definition bind {A B : Type} (r : Run A) (k : A -> Run B) : Run B :=
  match r with
  | Continue a => k a
  | Exit e => Exit e
  | Panic => Panic
  end.

Notation "x <- r ;; k" := (bind r (fun x => k))
  (at level 61, r at next level, right associativity).

(** One turn of the [SUM] loop. *)
Definition sum_step (valueType : string) (ret : float) (point : option Point) : float :=
  (ret + getFloatValue valueType (GetValue point))%float.

(** One turn of the [MAX] loop. *)
Definition max_step (valueType : string) (ret : float) (point : option Point) : float :=
  let current := getFloatValue valueType (GetValue point) in
  if (current <? ret)%float then ret else current.

(** [evaluate]; [points[0]] on an empty slice panics. *)
Definition evaluate (evaluateType valueType : string) (points : list (option Point)) : Run float :=
  if String.eqb evaluateType "LAST" then
    match points with
    | [] => Panic
    | p :: _ => Continue (getFloatValue valueType (GetValue p))
    end
  else if String.eqb evaluateType "SUM" then
    Continue (fold_left (sum_step valueType) points 0%float)
  else if String.eqb evaluateType "MAX" then
    Continue (fold_left (max_step valueType) points 0%float)
  else Continue 0%float.

(** The labels left once [project_id] is deleted. *)
Definition delete_project_id (labels : list (string * string)) : list (string * string) :=
  filter (fun kv => negb (String.eqb (fst kv) "project_id")) labels.

(** The name a series gets: the value of the label visited last. *)
Definition metric_name_of (labels : list (string * string)) : string :=
  fold_left (fun _ kv => snd kv) (delete_project_id labels) "".

(** What one call of [it.Next] returns (other than [iterator.Done]). *)
Inductive Next :=
| Resp (resp : TimeSeries)
| Err (err : string).

(** The fetch loop of [main]: the metrics gathered and the number of points
    seen, unless the process ends in it. *)
Fixpoint fetch (opts : Options) (it : list Next) (metrics : list Metric) (length : Z)
  : Run (list Metric * Z) :=
  match it with
  | [] => Continue (metrics, length)
  | Err _ :: _ => Exit (output UNKNOWN "Failed to fetch time series.")
  | Resp resp :: it' =>
      metric_value <- evaluate (Evalution opts) (ValueType_String (ValueType_ resp)) (Points resp) ;;
      let length := length + Z.of_nat (List.length (Points resp)) in
      let metric_name := metric_name_of (Labels resp) in
      fetch opts it' (metrics ++ [{| Name := metric_name; Value := metric_value |}]) length
  end.

(** The state of the threshold loop of [main]. *)
Record Verdict := {
  status : Z;
  message : string;
  perfdata : string
}.

Definition init_verdict : Verdict :=
  {| status := OK; message := "Everything is OK"; perfdata := "|" |}.

(** [fmt.Sprintf("%s %s value: %d over %d", name, label, int(value), int(limit))] *)
Definition breach_message (name label : string) (value limit : float) : string :=
  name ++ " " ++ label ++ " value: " ++ Go.fmt_d (Go.int_of_float64 value)
       ++ " over " ++ Go.fmt_d (Go.int_of_float64 limit).

(** [fmt.Sprintf("%s=%f;%d;%d ", name, value, int(warning), int(critical))] *)
Definition perf_token (opts : Options) (name : string) (value : float) : string :=
  name ++ "=" ++ Go.fmt_f value ++ ";" ++ Go.fmt_d (Go.int_of_float64 (Warning opts))
       ++ ";" ++ Go.fmt_d (Go.int_of_float64 (Critical opts)) ++ " ".

(** The body of the threshold loop, for one element of [metrics]. *)
Definition check (opts : Options) (v : Verdict) (element : Metric) : Verdict :=
  let name := Name element in
  let value := Value element in
  let '(status', message') :=
    if (0 <? Critical opts)%float && (Critical opts <=? value)%float
       && ((status v =? OK) || (status v =? WARNING))
    then (CRITICAL, breach_message name (Evalution opts) value (Critical opts))
    else if (0 <? Warning opts)%float && (Warning opts <=? value)%float
            && (status v =? OK)
    then (WARNING, breach_message name (Evalution opts) value (Warning opts))
    else (status v, message v) in
  {| status := status'; message := message';
     perfdata := perfdata v ++ perf_token opts name value |}.

(** The threshold loop and the final [output]. *)
Definition verdict_of (opts : Options) (metrics : list Metric) : Verdict :=
  fold_left (check opts) metrics init_verdict.

Definition report (opts : Options) (metrics : list Metric) : Exited :=
  let v := verdict_of opts metrics in
  output (status v) (message v ++ perfdata v).

(** [main] from the creation of the iterator on, with what follows the
    emptiness test as a parameter. *)
Definition main_with (evaluation : Options -> list Metric -> Exited)
  (opts : Options) (it : list Next) : Run Exited :=
  r <- fetch opts it [] 0 ;;
  let '(metrics, length) := r in
  if length =? 0 then Exit (output UNKNOWN "Time series is empty.")
  else Exit (evaluation opts metrics).

Definition main (opts : Options) (it : list Next) : Run Exited :=
  main_with report opts it.

(** ** Notions used in the statements *)

(** The number of line terminators in a text. *)
Fixpoint line_ends (s : string) : nat :=
  match s with
  | EmptyString => 0%nat
  | String c s' => ((if Ascii.eqb c (ascii_of_nat 10) then 1 else 0) + line_ends s')%nat
  end.

(** The normalized value of a point. *)
Definition normalized (valueType : string) (p : option Point) : float :=
  getFloatValue valueType (GetValue p).

(** The result of an aggregation as a [spec_float], to tell results apart. *)
Definition result_bits (r : Run float) : option spec_float :=
  match r with
  | Continue x => Some (Prim2SF x)
  | _ => None
  end.

(** The number of points in all the series of a response. *)
Definition total_points (groups : list TimeSeries) : Z :=
  fold_right (fun g n => Z.of_nat (List.length (Points g)) + n) 0 groups.

(** The [INT64] values of a series, their sum and the sum of their
    magnitudes. *)
Definition int64_values (points : list (option Point)) : list Z :=
  map (fun p => GetInt64Value (GetValue p)) points.

Definition Zsum (l : list Z) : Z := fold_right Z.add 0 l.

Definition Zsum_abs (l : list Z) : Z := fold_right (fun z n => Z.abs z + n) 0 l.

(** The binary64 number of an integer below 2^53 in magnitude: the mantissa
    is shifted to 53 bits. *)
Definition canon (s : bool) (n : positive) : spec_float :=
  S754_finite s (Z.to_pos (Z.pos n * 2 ^ (53 - Z.pos (digits2_pos n))))
                (Z.pos (digits2_pos n) - 53).

Definition canonZ (z : Z) : spec_float :=
  match z with
  | Z0 => S754_zero false
  | Zpos n => canon false n
  | Zneg n => canon true n
  end.

(** ** The start of [main]: options, request and client *)

(** Go's [int64] arithmetic: results wrap around modulo 2^64. *)
Module Int64.

Definition wrap (z : Z) : Z := (z + 2 ^ 63) mod 2 ^ 64 - 2 ^ 63.

Definition add (a b : Z) : Z := wrap (a + b).

Definition sub (a b : Z) : Z := wrap (a - b).

Definition mul (a b : Z) : Z := wrap (a * b).

(** The values of the type. *)
Definition in_range (z : Z) : Prop := - 2 ^ 63 <= z < 2 ^ 63.

End Int64.

(** The fields of [Options] read while the request is built. *)
Module Query.

Record Options := {
  Project : string;
  Metric : string;
  Filter : string;
  Delay : Z;
  Period : Z
}.

End Query.

(** [ListTimeSeriesRequest], with the seconds of its two timestamps. *)
Module Request.

Record TimeInterval := {
  EndTime : Z;
  StartTime : Z
}.

Record ListTimeSeriesRequest := {
  Name : string;
  Filter : string;
  Interval : TimeInterval
}.

End Request.

(** The double quote character, as a string. *)
Definition dquote : string := String (ascii_of_nat 34) EmptyString.

(** The filter string sent with the request. *)
Definition filter_of (q : Query.Options) : string :=
  let filter := "metric.type = " ++ dquote ++ Query.Metric q ++ dquote ++ " " in
  if Nat.eqb (String.length (Query.Filter q)) 0 then filter
  else filter ++ ("AND " ++ Query.Filter q ++ " ").

(** The request [main] builds, [unixNow] being [time.Now().Unix()]. *)
Definition request_of (q : Query.Options) (unixNow : Z) : Request.ListTimeSeriesRequest :=
  {| Request.Name := "projects/" ++ Query.Project q;
     Request.Filter := filter_of q;
     Request.Interval :=
       {| Request.EndTime := Int64.sub unixNow (Int64.mul (Query.Delay q) 60);
          Request.StartTime :=
            Int64.sub unixNow (Int64.mul (Int64.add (Query.Delay q) (Query.Period q)) 60) |} |}.

(** What [main] meets before the fetch loop: a parse error (with the help
    text that [WriteHelp] prints), an error of [NewMetricClient] (with its
    text), or an iterator. *)
Inductive Startup :=
| ParseError (help : string)
| ClientError (err : string)
| Ready (it : list Next).

(** The [Verbose] option, and the text [fmt.Println] writes for the values
    [verbose] is given that are of library or structure types: the options,
    the [Metric] and [Resource] of a series, a [float64], the metric list.
    A string and an error are written as they are. *)
Record Diagnostics := {
  Verbose : list bool;
  show_Options : string;
  show_Metric : TimeSeries -> string;
  show_Resource : TimeSeries -> string;
  show_float64 : float -> string;
  show_metrics : list Metric -> string
}.

(** [verbose]: what it writes for a value whose text is [value]. *)
Definition verbose (flag : list bool) (value : string) : string :=
  match flag with
  | [] => ""
  | b :: _ => if b then Go.Println value else ""
  end.

(** How a run ends, with all that was written to standard output: through
    [os.Exit] with a code, or by a panic. *)
Inductive Ended :=
| Exits (out : string) (code : Z)
| Panics (out : string).

(** [output] after [out] has been written. *)
Definition finish (out : string) (e : Exited) : Ended :=
  Exits (out ++ stdout e) (exit_code e).

(** The fetch loop of [main] with its diagnostics: [out] is what has been
    written so far. *)
Fixpoint fetch_out (d : Diagnostics) (opts : Options) (it : list Next)
  (metrics : list Metric) (length : Z) (out : string)
  : (list Metric * Z * string) + Ended :=
  match it with
  | [] => inl (metrics, length, out)
  | Err err :: _ =>
      let out := out ++ verbose (Verbose d) err in
      inr (finish out (output UNKNOWN "Failed to fetch time series."))
  | Resp resp :: it' =>
      let out := out ++ verbose (Verbose d) (show_Metric d resp) in
      let out := out ++ verbose (Verbose d) (show_Resource d resp) in
      match evaluate (Evalution opts) (ValueType_String (ValueType_ resp)) (Points resp) with
      | Continue metric_value =>
          let out := out ++ verbose (Verbose d) (show_float64 d metric_value) in
          let length := length + Z.of_nat (List.length (Points resp)) in
          let metric_name := metric_name_of (Labels resp) in
          fetch_out d opts it'
            (metrics ++ [{| Name := metric_name; Value := metric_value |}]) length out
      | Exit e => inr (finish out e)
      | Panic => inr (Panics out)
      end
  end.

(** [main] as a whole, diagnostics included. *)
Definition program (d : Diagnostics) (q : Query.Options) (opts : Options) (s : Startup)
  : Ended :=
  match s with
  | ParseError help => finish help (output UNKNOWN "Missing required arguments.")
  | ClientError err =>
      let out := verbose (Verbose d) (show_Options d) in
      finish out (output UNKNOWN ("GCP SDK Client request failed (" ++ err ++ ")"))
  | Ready it =>
      let out := verbose (Verbose d) (show_Options d) in
      let out := out ++ verbose (Verbose d) (filter_of q) in
      match fetch_out d opts it [] 0 out with
      | inl (metrics, length, out) =>
          let out := out ++ verbose (Verbose d) (show_metrics d metrics) in
          if length =? 0 then finish out (output UNKNOWN "Time series is empty.")
          else finish out (report opts metrics)
      | inr ended => ended
      end
  end.

(** The test of one threshold on one value: the threshold is active and
    the value reaches it. *)
Definition breaches (limit value : float) : bool :=
  (0 <? limit)%float && (limit <=? value)%float.

(** The metric a series gives when [evaluate] returns [x]. *)
Definition metric_of (resp : TimeSeries) (x : float) : Metric :=
  {| Name := metric_name_of (Labels resp); Value := x |}.

(** ** Facts about [float64] *)

Section Float64.

Lemma Prim2SF_zero : Prim2SF 0%float = S754_zero false.
Proof. reflexivity. Qed.

(** A value that is at most zero is not above zero. *)
Lemma le_zero_not_pos (c : float) :
  (c <=? 0)%float = true -> (0 <? c)%float = false.
Proof.
  rewrite leb_spec, ltb_spec, Prim2SF_zero.
  destruct (Prim2SF c) as [s | s | | s m e]; try destruct s; cbn; congruence.
Qed.

(** A value below zero is not zero. *)
Lemma lt_zero_not_zero (x : float) :
  (x <? 0)%float = true -> x <> 0%float.
Proof.
  intros H E. subst x. vm_compute in H. discriminate.
Qed.

(** Adding to positive zero changes nothing, except that negative zero
    comes out positive. *)
Lemma add_zero_l (x : float) :
  x <> neg_zero -> (0 + x)%float = x.
Proof.
  intros Hx. apply Prim2SF_inj. rewrite add_spec, Prim2SF_zero.
  destruct (Prim2SF x) as [s | s | | s m e] eqn:E; try reflexivity.
  destruct s; try reflexivity.
  exfalso. apply Hx. rewrite <- (SF2Prim_Prim2SF x), E. reflexivity.
Qed.

Lemma SF64add_comm (x y : spec_float) : SF64add x y = SF64add y x.
Proof.
  unfold SF64add, SFadd.
  destruct x as [sx | sx | | sx mx ex], y as [sy | sy | | sy my ey];
    try reflexivity; try (destruct sx, sy; reflexivity).
  rewrite (Z.min_comm ey ex), Z.add_comm. reflexivity.
Qed.

Lemma add_comm (x y : float) : (x + y)%float = (y + x)%float.
Proof.
  apply Prim2SF_inj. rewrite !add_spec. apply SF64add_comm.
Qed.

(** Starting from zero, the order of the first two terms does not matter. *)
Lemma add_zero_swap (x y : float) : (0 + x + y)%float = (0 + y + x)%float.
Proof.
  apply Prim2SF_inj. rewrite !add_spec, Prim2SF_zero.
  destruct (Prim2SF x) as [sx | sx | | sx mx ex], (Prim2SF y) as [sy | sy | | sy my ey];
    try reflexivity; try (destruct sx, sy; reflexivity);
    try (destruct sx; reflexivity); try (destruct sy; reflexivity).
  change (SF64add (S754_zero false) (S754_finite sx mx ex)) with (S754_finite sx mx ex).
  change (SF64add (S754_zero false) (S754_finite sy my ey)) with (S754_finite sy my ey).
  apply SF64add_comm.
Qed.

End Float64.

(** ** Integers in [float64]: sums below 2^53 are exact *)

Section ExactIntegers.

(** [digits2_pos n] is the number of binary digits of [n]. *)
Lemma digits2_pos_bounds (n : positive) :
  2 ^ (Z.pos (digits2_pos n) - 1) <= Z.pos n < 2 ^ Z.pos (digits2_pos n).
Proof.
  induction n as [n IH | n IH |]; cbn [digits2_pos].
  - rewrite Pos2Z.inj_succ.
    replace (Z.succ (Z.pos (digits2_pos n)) - 1) with (Z.succ (Z.pos (digits2_pos n) - 1)) by lia.
    rewrite !Z.pow_succ_r by lia. lia.
  - rewrite Pos2Z.inj_succ.
    replace (Z.succ (Z.pos (digits2_pos n)) - 1) with (Z.succ (Z.pos (digits2_pos n) - 1)) by lia.
    rewrite !Z.pow_succ_r by lia. lia.
  - cbn. lia.
Qed.

Lemma digits2_pos_unique (n : positive) (d : Z) :
  2 ^ (d - 1) <= Z.pos n < 2 ^ d -> Z.pos (digits2_pos n) = d.
Proof.
  intros [L U]. pose proof (digits2_pos_bounds n) as [L' U'].
  assert (0 < d).
  { destruct (Z.ltb_spec 0 d); [assumption |].
    exfalso. destruct (Z.eq_dec d 0) as [-> | N]; [cbn in U; lia |].
    rewrite Z.pow_neg_r in U by lia. lia. }
  destruct (Z.lt_trichotomy (Z.pos (digits2_pos n)) d) as [C | [C | C]]; [| exact C |]; exfalso.
  - assert (2 ^ Z.pos (digits2_pos n) <= 2 ^ (d - 1)) by (apply Z.pow_le_mono_r; lia). lia.
  - assert (2 ^ d <= 2 ^ (Z.pos (digits2_pos n) - 1)) by (apply Z.pow_le_mono_r; lia). lia.
Qed.

Lemma digits2_pos_shift (n p : positive) (k : Z) :
  0 <= k -> Z.pos p = Z.pos n * 2 ^ k ->
  Z.pos (digits2_pos p) = Z.pos (digits2_pos n) + k.
Proof.
  intros Hk E. apply digits2_pos_unique. rewrite E.
  pose proof (digits2_pos_bounds n) as [L U].
  replace (Z.pos (digits2_pos n) + k - 1) with ((Z.pos (digits2_pos n) - 1) + k) by lia.
  rewrite !Z.pow_add_r by lia.
  assert (0 < 2 ^ k) by (apply Z.pow_pos_nonneg; lia).
  split; nia.
Qed.

Lemma iter_xO_pow (m d : positive) : Z.pos (Pos.iter xO m d) = Z.pos m * 2 ^ Z.pos d.
Proof.
  induction d as [| d IH] using Pos.peano_ind.
  - cbn. lia.
  - rewrite Pos.iter_succ, Pos2Z.inj_xO, IH, Pos2Z.inj_succ, Z.pow_succ_r by lia. lia.
Qed.

Lemma iter_pos_iter {A : Type} (f : A -> A) (p : positive) (x : A) :
  iter_pos f p x = Pos.iter f x p.
Proof.
  revert x. induction p as [p IH | p IH |]; intros x; cbn.
  - rewrite !IH. rewrite <- !Pos.iter_swap. reflexivity.
  - now rewrite !IH.
  - reflexivity.
Qed.

Lemma shr_exact (m : positive) (p : positive) (P : positive) :
  Z.pos P = Z.pos m * 2 ^ Z.pos p ->
  iter_pos shr_1 p {| shr_m := Z.pos P; shr_r := false; shr_s := false |}
  = {| shr_m := Z.pos m; shr_r := false; shr_s := false |}.
Proof.
  rewrite iter_pos_iter. revert m P.
  induction p as [| p IH] using Pos.peano_ind; intros m P E.
  - cbn. change (2 ^ 1) with 2 in E. assert (P = xO m) by lia. subst P. reflexivity.
  - rewrite Pos.iter_succ.
    rewrite (IH (xO m) P).
    + reflexivity.
    + rewrite E, Pos2Z.inj_succ, Z.pow_succ_r by lia. lia.
Qed.

Lemma digits_le_53 (n : positive) : Z.pos n < 2 ^ 53 -> Z.pos (digits2_pos n) <= 53.
Proof.
  intros H. pose proof (digits2_pos_bounds n) as [L _].
  destruct (Z.leb_spec (Z.pos (digits2_pos n)) 53) as [C | C]; [exact C | exfalso].
  assert (2 ^ 53 <= 2 ^ (Z.pos (digits2_pos n) - 1)) by (apply Z.pow_le_mono_r; lia).
  lia.
Qed.

Lemma canon_mantissa (n : positive) :
  Z.pos n < 2 ^ 53 ->
  Z.pos (Z.to_pos (Z.pos n * 2 ^ (53 - Z.pos (digits2_pos n))))
  = Z.pos n * 2 ^ (53 - Z.pos (digits2_pos n)).
Proof.
  intros H. pose proof (digits_le_53 n H).
  apply Z2Pos.id. apply Z.mul_pos_pos; [lia | apply Z.pow_pos_nonneg; lia].
Qed.

Lemma canon_digits (n : positive) :
  Z.pos n < 2 ^ 53 ->
  Z.pos (digits2_pos (Z.to_pos (Z.pos n * 2 ^ (53 - Z.pos (digits2_pos n))))) = 53.
Proof.
  intros H. pose proof (digits_le_53 n H).
  rewrite (digits2_pos_shift n _ (53 - Z.pos (digits2_pos n))); [lia | lia |].
  now apply canon_mantissa.
Qed.

Lemma shr_fexp_canonical (M : positive) (E : Z) :
  Z.pos (digits2_pos M) = 53 -> -1074 <= E ->
  shr_fexp prec emax (Z.pos M) E loc_Exact
  = ({| shr_m := Z.pos M; shr_r := false; shr_s := false |}, E).
Proof.
  intros D HE.
  assert (X : fexp prec emax (Zdigits2 (Z.pos M) + E) - E = 0).
  { unfold fexp, emin, Zdigits2, prec, emax. rewrite D. lia. }
  unfold shr_fexp. rewrite X. reflexivity.
Qed.

Lemma binary_round_aux_tail (s : bool) (m : Z) (e : Z) (M : positive) (E : Z) :
  shr_fexp prec emax m e loc_Exact
    = ({| shr_m := Z.pos M; shr_r := false; shr_s := false |}, E) ->
  Z.pos (digits2_pos M) = 53 -> -1074 <= E <= 971 ->
  binary_round_aux prec emax s m e loc_Exact = S754_finite s M E.
Proof.
  intros S D [L U]. unfold binary_round_aux.
  rewrite S. cbn [shr_m loc_of_shr_record round_nearest_even].
  rewrite (shr_fexp_canonical M E D L). cbn [shr_m].
  unfold prec, emax.
  destruct (Z.leb_spec E (1024 - 53)); [reflexivity | lia].
Qed.

Lemma binary_round_aux_canonical (s : bool) (M : positive) (E : Z) :
  Z.pos (digits2_pos M) = 53 -> -1074 <= E <= 971 ->
  binary_round_aux prec emax s (Z.pos M) E loc_Exact = S754_finite s M E.
Proof.
  intros D [L U]. apply binary_round_aux_tail; [| exact D | lia].
  now apply shr_fexp_canonical.
Qed.

(** Rounding [n * 2^k] at exponent [-k] gives the number of [n]. *)
Lemma binary_round_int (s : bool) (n P : positive) (k : Z) :
  0 <= k -> Z.pos n < 2 ^ 53 -> Z.pos P = Z.pos n * 2 ^ k -> k <= 1000 ->
  binary_round prec emax s P (- k) = canon s n.
Proof.
  intros Hk Hn EP Hk'.
  pose proof (digits_le_53 n Hn) as Hd.
  pose proof (Pos2Z.is_pos (digits2_pos n)) as Hd0.
  pose proof (digits2_pos_shift n P k Hk EP) as DP.
  pose proof (canon_mantissa n Hn) as CM.
  pose proof (canon_digits n Hn) as CD.
  unfold binary_round.
  assert (F : fexp prec emax (Z.pos (digits2_pos P) + - k) = Z.pos (digits2_pos n) - 53).
  { unfold fexp, emin, prec, emax. rewrite DP. lia. }
  rewrite F. unfold shl_align.
  destruct (Z.pos (digits2_pos n) - 53 - - k) as [| q | q] eqn:T.
  - (* no shift at all *)
    assert (k = 53 - Z.pos (digits2_pos n)) by lia.
    assert (P = Z.to_pos (Z.pos n * 2 ^ (53 - Z.pos (digits2_pos n))))
      by (apply Pos2Z.inj; rewrite CM, EP; now subst k).
    unfold canon. replace (Z.pos (digits2_pos n) - 53) with (- k) by lia.
    subst P. apply binary_round_aux_canonical; [exact CD | lia].
  - (* shift right by q *)
    unfold canon. apply binary_round_aux_tail; [| exact CD | lia].
    unfold shr_fexp.
    assert (X : fexp prec emax (Zdigits2 (Z.pos P) + - k) - - k = Z.pos q).
    { cbn [Zdigits2]. rewrite F. exact T. }
    rewrite X. cbn [shr_record_of_loc shr].
    rewrite (shr_exact (Z.to_pos (Z.pos n * 2 ^ (53 - Z.pos (digits2_pos n)))) q P).
    + f_equal. lia.
    + rewrite CM, EP. replace k with ((53 - Z.pos (digits2_pos n)) + Z.pos q) at 1 by lia.
      rewrite Z.pow_add_r by lia. lia.
  - (* shift left by q *)
    unfold canon.
    assert (Pos.iter xO P q = Z.to_pos (Z.pos n * 2 ^ (53 - Z.pos (digits2_pos n)))) as ->.
    { apply Pos2Z.inj. rewrite iter_xO_pow, CM, EP.
      replace (53 - Z.pos (digits2_pos n)) with (k + Z.pos q) by lia.
      rewrite Z.pow_add_r by lia. lia. }
    apply binary_round_aux_canonical; [exact CD | lia].
Qed.

Lemma binary_normalize_int (z k : Z) :
  0 <= k <= 1000 -> Z.abs z < 2 ^ 53 ->
  binary_normalize prec emax (z * 2 ^ k) (- k) false = canonZ z.
Proof.
  intros [Hk Hk'] Hz.
  assert (0 < 2 ^ k) by (apply Z.pow_pos_nonneg; lia).
  destruct z as [| n | n]; cbn [canonZ].
  - reflexivity.
  - destruct (Z.pos n * 2 ^ k) as [| P | P] eqn:E; try lia.
    cbn [binary_normalize]. apply binary_round_int; try lia.
  - destruct (Z.neg n * 2 ^ k) as [| P | P] eqn:E; try lia.
    cbn [binary_normalize]. apply binary_round_int; try lia.
Qed.

Lemma binary_normalize_canon (z : Z) :
  Z.abs z < 2 ^ 53 -> binary_normalize prec emax z 0 false = canonZ z.
Proof.
  intros H. rewrite <- (binary_normalize_int z 0) by lia.
  now rewrite Z.mul_1_r.
Qed.

Lemma canonZ_valid (z : Z) : Z.abs z < 2 ^ 53 -> valid_binary (canonZ z) = true.
Proof.
  intros H.
  assert (V : forall s n, Z.pos n < 2 ^ 53 -> valid_binary (canon s n) = true).
  { intros s n Hn. unfold canon, valid_binary, bounded, canonical_mantissa.
    rewrite (canon_digits n Hn).
    pose proof (digits_le_53 n Hn). pose proof (Pos2Z.is_pos (digits2_pos n)).
    apply andb_true_intro. split.
    - apply Z.eqb_eq. unfold fexp, emin, prec, emax. lia.
    - apply Z.leb_le. unfold prec, emax. lia. }
  destruct z as [| n | n]; [reflexivity | apply V | apply V]; lia.
Qed.

Lemma shl_align_fst (m : positive) (e ez : Z) :
  ez <= e -> Z.pos (fst (shl_align m e ez)) = Z.pos m * 2 ^ (e - ez).
Proof.
  intros H. unfold shl_align.
  destruct (ez - e) as [| d | d] eqn:E; cbn [fst]; try lia.
  - replace (e - ez) with 0 by lia. lia.
  - rewrite iter_xO_pow. f_equal. f_equal. lia.
Qed.

Lemma canon_aligned (n : positive) (ez : Z) :
  Z.pos n < 2 ^ 53 -> ez <= Z.pos (digits2_pos n) - 53 ->
  Z.pos (Z.to_pos (Z.pos n * 2 ^ (53 - Z.pos (digits2_pos n))))
    * 2 ^ (Z.pos (digits2_pos n) - 53 - ez)
  = Z.pos n * 2 ^ (- ez).
Proof.
  intros Hn He. rewrite (canon_mantissa n Hn).
  pose proof (digits_le_53 n Hn).
  rewrite <- Z.mul_assoc, <- Z.pow_add_r by lia.
  f_equal. f_equal. lia.
Qed.

Lemma SF64add_canon_finite (sa sb : bool) (na nb : positive) :
  Z.pos na < 2 ^ 53 -> Z.pos nb < 2 ^ 53 ->
  Z.abs (cond_Zopp sa (Z.pos na) + cond_Zopp sb (Z.pos nb)) < 2 ^ 53 ->
  SF64add (canon sa na) (canon sb nb)
  = canonZ (cond_Zopp sa (Z.pos na) + cond_Zopp sb (Z.pos nb)).
Proof.
  intros Ha Hb Hab.
  pose proof (digits_le_53 na Ha). pose proof (digits_le_53 nb Hb).
  pose proof (Pos2Z.is_pos (digits2_pos na)). pose proof (Pos2Z.is_pos (digits2_pos nb)).
  unfold SF64add, SFadd, canon.
  set (ez := Z.min (Z.pos (digits2_pos na) - 53) (Z.pos (digits2_pos nb) - 53)).
  assert (Ea : ez <= Z.pos (digits2_pos na) - 53) by (unfold ez; lia).
  assert (Eb : ez <= Z.pos (digits2_pos nb) - 53) by (unfold ez; lia).
  rewrite !shl_align_fst by assumption.
  rewrite (canon_aligned na ez Ha Ea), (canon_aligned nb ez Hb Eb).
  replace (cond_Zopp sa (Z.pos na * 2 ^ (- ez)) + cond_Zopp sb (Z.pos nb * 2 ^ (- ez)))
    with ((cond_Zopp sa (Z.pos na) + cond_Zopp sb (Z.pos nb)) * 2 ^ (- ez))
    by (destruct sa, sb; cbn [cond_Zopp]; lia).
  replace ez with (- - ez) at 2 by lia.
  apply binary_normalize_int; [unfold ez; lia | exact Hab].
Qed.

Lemma SF64add_canonZ (a b : Z) :
  Z.abs a < 2 ^ 53 -> Z.abs b < 2 ^ 53 -> Z.abs (a + b) < 2 ^ 53 ->
  SF64add (canonZ a) (canonZ b) = canonZ (a + b).
Proof.
  intros Ha Hb Hab.
  destruct a as [| na | na], b as [| nb | nb]; try reflexivity.
  - apply (SF64add_canon_finite false false); assumption || lia.
  - apply (SF64add_canon_finite false true); assumption || lia.
  - apply (SF64add_canon_finite true false); assumption || lia.
  - apply (SF64add_canon_finite true true); assumption || lia.
Qed.

Lemma float64_of_int_spec (z : Z) :
  Z.abs z < 2 ^ 53 -> Prim2SF (Go.float64_of_int z) = canonZ z.
Proof.
  intros H. unfold Go.float64_of_int. rewrite (binary_normalize_canon z H).
  apply Prim2SF_SF2Prim. now apply canonZ_valid.
Qed.

Lemma float64_of_int_add (a b : Z) :
  Z.abs a < 2 ^ 53 -> Z.abs b < 2 ^ 53 -> Z.abs (a + b) < 2 ^ 53 ->
  (Go.float64_of_int a + Go.float64_of_int b)%float = Go.float64_of_int (a + b).
Proof.
  intros Ha Hb Hab. apply Prim2SF_inj.
  rewrite add_spec, !float64_of_int_spec by assumption.
  now apply SF64add_canonZ.
Qed.

(** Adding the numbers of a list of integers, left to right, is exact as
    long as the magnitudes add up to less than 2^53. *)
Lemma float64_sum_exact (zs : list Z) (acc : Z) :
  Z.abs acc + Zsum_abs zs < 2 ^ 53 ->
  fold_left PrimFloat.add (map Go.float64_of_int zs) (Go.float64_of_int acc)
  = Go.float64_of_int (acc + Zsum zs).
Proof.
  revert acc. induction zs as [| z zs IH]; intros acc H; cbn [map fold_left Zsum fold_right].
  - now rewrite Z.add_0_r.
  - unfold Zsum_abs in H. cbn [fold_right] in H. fold (Zsum_abs zs) in H.
    assert (0 <= Zsum_abs zs).
    { clear. unfold Zsum_abs. induction zs as [| y ys IHy]; cbn [fold_right]; lia. }
    rewrite float64_of_int_add by lia.
    rewrite IH by lia. fold (Zsum zs). f_equal. lia.
Qed.

Lemma Zsum_Permutation (l l' : list Z) : Permutation l l' -> Zsum l = Zsum l'.
Proof. unfold Zsum. induction 1; cbn [fold_right]; lia. Qed.

Lemma Zsum_abs_Permutation (l l' : list Z) : Permutation l l' -> Zsum_abs l = Zsum_abs l'.
Proof. unfold Zsum_abs. induction 1; cbn [fold_right]; lia. Qed.

End ExactIntegers.

(** ** Facts about strings *)

Lemma append_assoc (a b c : string) : (a ++ b) ++ c = a ++ (b ++ c).
Proof. induction a as [| x a IH]; cbn; [reflexivity | now rewrite IH]. Qed.


Lemma line_ends_append (a b : string) :
  line_ends (a ++ b) = (line_ends a + line_ends b)%nat.
Proof. induction a as [| x a IH]; cbn; [reflexivity | rewrite IH; lia]. Qed.

(** ** The threshold loop *)

Section Thresholds.

Variable opts : Options.

Lemma verdict_of_app (before after : list Metric) :
  verdict_of opts (before ++ after) = fold_left (check opts) after (verdict_of opts before).
Proof. apply fold_left_app. Qed.

(** One turn of the loop, by cases on the tests of its [if]. *)
Lemma check_cases (v : Verdict) (element : Metric) :
  let crit := (0 <? Critical opts)%float && (Critical opts <=? Value element)%float in
  let warn := (0 <? Warning opts)%float && (Warning opts <=? Value element)%float in
  let v' := check opts v element in
  (crit = true /\ (status v = OK \/ status v = WARNING) /\ status v' = CRITICAL /\
     message v' = breach_message (Name element) (Evalution opts) (Value element) (Critical opts))
  \/ ((crit = false \/ (status v <> OK /\ status v <> WARNING)) /\
      warn = true /\ status v = OK /\ status v' = WARNING /\
      message v' = breach_message (Name element) (Evalution opts) (Value element) (Warning opts))
  \/ ((crit = false \/ (status v <> OK /\ status v <> WARNING)) /\
      (warn = false \/ status v <> OK) /\ status v' = status v /\ message v' = message v).
Proof.
  cbv zeta. unfold check.
  destruct ((0 <? Critical opts)%float && (Critical opts <=? Value element)%float) eqn:Ec;
  destruct ((0 <? Warning opts)%float && (Warning opts <=? Value element)%float) eqn:Ew;
  destruct (status v =? OK) eqn:E0; destruct (status v =? WARNING) eqn:E1; cbn;
  rewrite ?Z.eqb_eq, ?Z.eqb_neq in *; tauto.
Qed.

Lemma status_range_step (v : Verdict) (element : Metric) :
  (status v = OK \/ status v = WARNING \/ status v = CRITICAL) ->
  status (check opts v element) = OK \/ status (check opts v element) = WARNING
  \/ status (check opts v element) = CRITICAL.
Proof.
  intros H. destruct (check_cases v element) as [C | [C | C]]; cbv zeta in C.
  - tauto.
  - tauto.
  - destruct C as (_ & _ & -> & _). exact H.
Qed.

Lemma status_range (metrics : list Metric) :
  let v := verdict_of opts metrics in
  status v = OK \/ status v = WARNING \/ status v = CRITICAL.
Proof.
  cbv zeta. induction metrics as [| m ms IH] using rev_ind.
  - left. reflexivity.
  - rewrite verdict_of_app. cbn. now apply status_range_step.
Qed.

Lemma critical_is_final (after : list Metric) (v : Verdict) :
  status v = CRITICAL ->
  status (fold_left (check opts) after v) = CRITICAL /\
  message (fold_left (check opts) after v) = message v.
Proof.
  revert v. induction after as [| m ms IH]; intros v Hv; cbn.
  - now split.
  - destruct (check_cases v m) as [C | [C | C]]; cbv zeta in C.
    + destruct C as (_ & [H | H] & _); rewrite Hv in H; discriminate.
    + destruct C as (_ & _ & H & _). rewrite Hv in H. discriminate.
    + destruct C as (_ & _ & Hs & Hm).
      destruct (IH (check opts v m)) as [I1 I2]; [congruence |].
      split; [exact I1 | congruence].
Qed.

Lemma warning_only_upgrades (after : list Metric) (v : Verdict) :
  status v = WARNING ->
  (status (fold_left (check opts) after v) = WARNING /\
   message (fold_left (check opts) after v) = message v)
  \/ status (fold_left (check opts) after v) = CRITICAL.
Proof.
  revert v. induction after as [| m ms IH]; intros v Hv; cbn.
  - left. now split.
  - destruct (check_cases v m) as [C | [C | C]]; cbv zeta in C.
    + destruct C as (_ & _ & Hs & _). right.
      now apply critical_is_final.
    + destruct C as (_ & _ & H & _). rewrite Hv in H. discriminate.
    + destruct C as (_ & _ & Hs & Hm).
      destruct (IH (check opts v m)) as [[I1 I2] | I]; [congruence | | now right].
      left. split; [exact I1 | congruence].
Qed.

Lemma status_never_decreases (after : list Metric) (v : Verdict) :
  (status v = OK \/ status v = WARNING \/ status v = CRITICAL) ->
  status v <= status (fold_left (check opts) after v).
Proof.
  revert v. induction after as [| m ms IH]; intros v Hv; cbn.
  - lia.
  - specialize (IH (check opts v m) (status_range_step v m Hv)).
    destruct (check_cases v m) as [C | [C | C]]; cbv zeta in C.
    + destruct C as (_ & _ & Hs & _). rewrite Hs in IH.
      unfold OK, WARNING, CRITICAL in *. lia.
    + destruct C as (_ & _ & H0 & Hs & _). rewrite Hs in IH.
      unfold OK, WARNING, CRITICAL in *. lia.
    + destruct C as (_ & _ & Hs & _). rewrite Hs in IH. exact IH.
Qed.

End Thresholds.

(** ** The status evaluator *)

(** C1. In the fold over the metric list the critical test of a metric comes
    before its warning test, and the status only moves forward: with
    [before] already folded, one more [element] that reaches an active
    critical threshold makes the status CRITICAL with the critical message
    whatever the warning test would say, and WARNING is set only from OK when
    the critical branch was not taken; over any further metrics [after] the
    status stays within OK, WARNING, CRITICAL and never decreases, a CRITICAL
    status and its message are kept, and a WARNING status either keeps its
    message or becomes CRITICAL. *)
Theorem status_precedence_and_monotonicity
  (opts : Options) (before after : list Metric) (element : Metric) :
  let v := verdict_of opts before in
  let v1 := verdict_of opts (before ++ [element]) in
  let v' := verdict_of opts (before ++ after) in
  let crit := (0 <? Critical opts)%float && (Critical opts <=? Value element)%float in
  let warn := (0 <? Warning opts)%float && (Warning opts <=? Value element)%float in
  (crit = true -> status v <> CRITICAL ->
     status v1 = CRITICAL /\
     message v1 = breach_message (Name element) (Evalution opts) (Value element) (Critical opts))
  /\ (crit = false -> warn = true -> status v = OK ->
     status v1 = WARNING /\
     message v1 = breach_message (Name element) (Evalution opts) (Value element) (Warning opts))
  /\ (status v1 = WARNING -> status v = OK -> crit = false)
  /\ (status v = OK \/ status v = WARNING \/ status v = CRITICAL)
  /\ status v <= status v'
  /\ (status v = CRITICAL -> status v' = CRITICAL /\ message v' = message v)
  /\ (status v = WARNING ->
      (status v' = WARNING /\ message v' = message v) \/ status v' = CRITICAL).
Proof.
  cbv zeta. rewrite !verdict_of_app. cbn [fold_left].
  pose proof (status_range opts before) as R. cbv zeta in R.
  pose proof (check_cases opts (verdict_of opts before) element) as C. cbv zeta in C.
  assert (N : forall z : Z, z = OK \/ z = WARNING \/ z = CRITICAL ->
                         z <> CRITICAL -> z = OK \/ z = WARNING) by tauto.
  refine (conj _ (conj _ (conj _ (conj R (conj _ (conj _ _)))))).
  - intros Hc Hs. specialize (N _ R Hs).
    destruct C as [C | [C | C]]; [tauto | |];
      (destruct C as ([C | C] & _); [congruence | tauto]).
  - intros Hc Hw Hs.
    destruct C as [C | [C | C]]; [| tauto |].
    + destruct C as (C & _). congruence.
    + destruct C as (_ & [C | C] & _); congruence.
  - intros H1 H0.
    destruct C as [C | [C | C]].
    + destruct C as (_ & _ & C & _). rewrite H1 in C. discriminate.
    + destruct C as ([C | C] & _); tauto.
    + destruct C as ([C | C] & _); tauto.
  - now apply status_never_decreases.
  - now apply critical_is_final.
  - now apply warning_only_upgrades.
Qed.

(** A run through all three statuses: warning 5, critical 10, values 6, 12, 7. *)
Example fold_trace :
  let opts := {| Evalution := "MAX"; Critical := 10; Warning := 5 |} in
  let ms := [ {| Name := "a"; Value := 6 |}; {| Name := "b"; Value := 12 |};
              {| Name := "c"; Value := 7 |} ] in
  map (fun n => status (verdict_of opts (firstn n ms))) [0; 1; 2; 3]%nat
    = [OK; WARNING; CRITICAL; CRITICAL]
  /\ message (verdict_of opts ms) = "b MAX value: 12 over 10"
  /\ perfdata (verdict_of opts ms) = "|a=6.000000;5;10 b=12.000000;5;10 c=7.000000;5;10 ".
Proof. vm_compute. repeat split. Qed.

Lemma disabled_step (opts : Options) (v : Verdict) (element : Metric) :
  (0 <? Critical opts)%float = false -> (0 <? Warning opts)%float = false ->
  status (check opts v element) = status v /\ message (check opts v element) = message v.
Proof.
  intros Hc Hw. unfold check. rewrite Hc, Hw. cbn. now split.
Qed.

Lemma disabled_fold (opts : Options) (metrics : list Metric) (v : Verdict) :
  (0 <? Critical opts)%float = false -> (0 <? Warning opts)%float = false ->
  status (fold_left (check opts) metrics v) = status v /\
  message (fold_left (check opts) metrics v) = message v.
Proof.
  intros Hc Hw. revert v. induction metrics as [| m ms IH]; intros v; cbn.
  - now split.
  - destruct (IH (check opts v m)) as [I1 I2].
    destruct (disabled_step opts v m Hc Hw) as [S1 S2].
    split; congruence.
Qed.

(** C2. A threshold counts only when it is strictly above zero: with the
    warning and the critical threshold both at most 0.0, the evaluation of
    any metric list ends with status OK and the message "Everything is OK". *)
Theorem disabled_thresholds_stay_ok (opts : Options) (metrics : list Metric) :
  (Warning opts <=? 0)%float = true ->
  (Critical opts <=? 0)%float = true ->
  status (verdict_of opts metrics) = OK /\
  message (verdict_of opts metrics) = "Everything is OK".
Proof.
  intros Hw Hc.
  apply (disabled_fold opts metrics init_verdict); now apply le_zero_not_pos.
Qed.

Lemma disabled_thresholds_stay_ok_witness :
  let opts := {| Evalution := "SUM"; Critical := (-3)%float; Warning := 0%float |} in
  let metrics := [ {| Name := "disk"; Value := 1e9%float |};
                   {| Name := "cpu"; Value := infinity |} ] in
  status (verdict_of opts metrics) = OK /\
  message (verdict_of opts metrics) = "Everything is OK".
Proof.
  exact (disabled_thresholds_stay_ok
           {| Evalution := "SUM"; Critical := (-3)%float; Warning := 0%float |}
           [ {| Name := "disk"; Value := 1e9%float |};
             {| Name := "cpu"; Value := infinity |} ]
           eq_refl eq_refl).
Defined.

(** ** The result emitter *)

(** C3. [output] writes the message behind the prefix of its status, "OK - ",
    "WARNING - ", "CRITICAL - " or "UNKNOWN - " (the last one also for a
    status that is none of the four), as one line: a single [Println], so one
    line terminator, at the end, when the message holds none.  The exit code
    is the status itself, and OK, WARNING, CRITICAL, UNKNOWN are 0, 1, 2, 3. *)
Theorem output_prefix_line_and_exit_code (status : Z) (message : string) :
  let e := output status message in
  (OK = 0 /\ WARNING = 1 /\ CRITICAL = 2 /\ UNKNOWN = 3)
  /\ exit_code e = status
  /\ (exists p : string,
        stdout e = p ++ message ++ Go.newline
        /\ (status = OK -> p = "OK - ")
        /\ (status = WARNING -> p = "WARNING - ")
        /\ (status = CRITICAL -> p = "CRITICAL - ")
        /\ (status = UNKNOWN -> p = "UNKNOWN - ")
        /\ (status <> OK -> status <> WARNING -> status <> CRITICAL -> p = "UNKNOWN - "))
  /\ (line_ends message = 0%nat -> line_ends (stdout e) = 1%nat).
Proof.
  cbv zeta. split; [repeat split |]. split; [reflexivity |]. split.
  - exists (status_prefix status). split.
    + unfold output, Go.Println. cbn. apply append_assoc.
    + unfold status_prefix.
      refine (conj _ (conj _ (conj _ (conj _ _)))); try (intros ->; reflexivity).
      intros N0 N1 N2.
      destruct (Z.eqb_spec status OK); [contradiction |].
      destruct (Z.eqb_spec status WARNING); [contradiction |].
      destruct (Z.eqb_spec status CRITICAL); [contradiction |].
      destruct (status =? UNKNOWN); reflexivity.
  - intros H. unfold output, Go.Println. cbn [stdout].
    rewrite !line_ends_append, H.
    unfold status_prefix.
    destruct (status =? OK); [reflexivity |].
    destruct (status =? WARNING); [reflexivity |].
    destruct (status =? CRITICAL); [reflexivity |].
    destruct (status =? UNKNOWN); reflexivity.
Qed.

Lemma output_prefix_line_and_exit_code_witness :
  stdout (output 7 "queue depth") = "UNKNOWN - queue depth" ++ Go.newline
  /\ exit_code (output 7 "queue depth") = 7
  /\ line_ends (stdout (output 7 "queue depth")) = 1%nat.
Proof.
  destruct (output_prefix_line_and_exit_code 7 "queue depth")
    as (_ & Hc & (p & Hp & _ & _ & _ & _ & Hd) & Hl).
  rewrite (Hd ltac:(discriminate) ltac:(discriminate) ltac:(discriminate)) in Hp.
  split; [exact Hp |]. split; [exact Hc |]. apply Hl. reflexivity.
Defined.

(** ** The series aggregator *)

Section Aggregator.

Variable valueType : string.

Lemma evaluate_LAST (points : list (option Point)) :
  evaluate "LAST" valueType points =
  match points with
  | [] => Panic
  | p :: _ => Continue (normalized valueType p)
  end.
Proof. reflexivity. Qed.

Lemma evaluate_SUM (points : list (option Point)) :
  evaluate "SUM" valueType points = Continue (fold_left (sum_step valueType) points 0%float).
Proof. reflexivity. Qed.

Lemma evaluate_MAX (points : list (option Point)) :
  evaluate "MAX" valueType points = Continue (fold_left (max_step valueType) points 0%float).
Proof. reflexivity. Qed.

Lemma evaluate_other (policy : string) (points : list (option Point)) :
  policy <> "LAST" -> policy <> "SUM" -> policy <> "MAX" ->
  evaluate policy valueType points = Continue 0%float.
Proof.
  intros H1 H2 H3. unfold evaluate.
  apply String.eqb_neq in H1, H2, H3. now rewrite H1, H2, H3.
Qed.

(** The [SUM] loop adds the normalized values from left to right. *)
Lemma sum_fold_map (points : list (option Point)) (ret : float) :
  fold_left (sum_step valueType) points ret
  = fold_left PrimFloat.add (map (normalized valueType) points) ret.
Proof.
  revert ret. induction points as [| p ps IH]; intros ret; cbn; [reflexivity | apply IH].
Qed.

(** The [MAX] loop never leaves zero on values below zero. *)
Lemma max_fold_negative (points : list (option Point)) :
  Forall (fun p => (normalized valueType p <? 0)%float = true) points ->
  fold_left (max_step valueType) points 0%float = 0%float.
Proof.
  induction 1 as [| p ps Hp _ IH]; cbn; [reflexivity |].
  unfold max_step at 2. fold (normalized valueType p). rewrite Hp. exact IH.
Qed.

End Aggregator.

Lemma float_neq (x y : float) : Prim2SF x <> Prim2SF y -> x <> y.
Proof. intros H E. apply H. now rewrite E. Qed.

(** C4, as stated, fails: under MAX a series made of the one point -1.0
    (of type DOUBLE) aggregates to 0.0, which is not the normalized value
    of that point. *)
Lemma single_point_counterexample :
  let p := Some {| monitoringpb.Value := Some (DoubleValue (-1)%float) |} in
  getFloatValue "DOUBLE" (GetValue p) = (-1)%float
  /\ evaluate "MAX" (ValueType_String DOUBLE) [p] = Continue 0%float
  /\ evaluate "MAX" (ValueType_String DOUBLE) [p]
     <> Continue (getFloatValue (ValueType_String DOUBLE) (GetValue p)).
Proof.
  cbv zeta. split; [reflexivity |]. split; [reflexivity |].
  intros H. apply (f_equal result_bits) in H. vm_compute in H. discriminate.
Qed.

(** C4, amended. For every value-type tag and every series of exactly one
    point, with [x] the normalized value of the point: LAST returns [x]; SUM
    returns [0.0 + x], which is [x] unless [x] is negative zero (then positive
    zero); MAX returns [x] when [x] is not below 0.0 and 0.0 when it is. *)
Theorem single_point_aggregate (valueType : string) (p : option Point) :
  let x := getFloatValue valueType (GetValue p) in
  evaluate "LAST" valueType [p] = Continue x
  /\ evaluate "SUM" valueType [p] = Continue (0 + x)%float
  /\ (x <> neg_zero -> evaluate "SUM" valueType [p] = Continue x)
  /\ (x = neg_zero -> evaluate "SUM" valueType [p] = Continue 0%float)
  /\ ((x <? 0)%float = false -> evaluate "MAX" valueType [p] = Continue x)
  /\ ((x <? 0)%float = true -> evaluate "MAX" valueType [p] = Continue 0%float).
Proof.
  cbv zeta. rewrite evaluate_LAST, evaluate_SUM, evaluate_MAX. cbn [fold_left].
  unfold sum_step, max_step, normalized.
  refine (conj eq_refl (conj eq_refl (conj _ (conj _ (conj _ _))))).
  - intros H. now rewrite add_zero_l.
  - intros ->. reflexivity.
  - intros ->. reflexivity.
  - intros ->. reflexivity.
Qed.

Lemma single_point_aggregate_witness :
  evaluate "SUM" "INT64" [Some {| monitoringpb.Value := Some (Int64Value 42) |}]
    = Continue (Go.float64_of_int 42)
  /\ evaluate "MAX" "DOUBLE" [Some {| monitoringpb.Value := Some (DoubleValue (-1)%float) |}]
    = Continue 0%float.
Proof.
  pose proof (single_point_aggregate "INT64"
                (Some {| monitoringpb.Value := Some (Int64Value 42) |})) as S.
  pose proof (single_point_aggregate "DOUBLE"
                (Some {| monitoringpb.Value := Some (DoubleValue (-1)%float) |})) as M.
  cbv zeta in S, M.
  destruct S as (_ & _ & S & _). destruct M as (_ & _ & _ & _ & _ & M).
  split.
  - apply S. apply float_neq. vm_compute. discriminate.
  - apply M. reflexivity.
Defined.

(** C5. The running maximum of MAX starts at zero: on a non-empty series
    whose normalized values are all below zero the result is 0.0, which is
    the value of none of the points. *)
Theorem max_of_negative_series_is_zero (valueType : string) (points : list (option Point)) :
  points <> [] ->
  Forall (fun p => (getFloatValue valueType (GetValue p) <? 0)%float = true) points ->
  evaluate "MAX" valueType points = Continue 0%float
  /\ Forall (fun p => getFloatValue valueType (GetValue p) <> 0%float) points.
Proof.
  intros _ H. split.
  - rewrite evaluate_MAX. f_equal. now apply max_fold_negative.
  - eapply Forall_impl; [| exact H]. intros p. apply lt_zero_not_zero.
Qed.

Lemma max_of_negative_series_is_zero_witness :
  evaluate "MAX" "INT64"
    [ Some {| monitoringpb.Value := Some (Int64Value (-5)) |};
      Some {| monitoringpb.Value := Some (Int64Value (-2)) |} ] = Continue 0%float.
Proof.
  apply (max_of_negative_series_is_zero "INT64"
           [ Some {| monitoringpb.Value := Some (Int64Value (-5)) |};
             Some {| monitoringpb.Value := Some (Int64Value (-2)) |} ]).
  - discriminate.
  - repeat constructor.
Defined.

(** C6, as stated, fails: the INT64 series 1, 2^53, -2^53 sums to 0.0
    (1 + 2^53 rounds to 2^53), its rearrangement 2^53, -2^53, 1 sums to
    1.0. *)
Lemma sum_permutation_counterexample :
  let a := Some {| monitoringpb.Value := Some (Int64Value 1) |} in
  let b := Some {| monitoringpb.Value := Some (Int64Value (2 ^ 53)) |} in
  let c := Some {| monitoringpb.Value := Some (Int64Value (- 2 ^ 53)) |} in
  Permutation [a; b; c] [b; c; a]
  /\ evaluate "SUM" (ValueType_String INT64) [a; b; c] = Continue 0%float
  /\ evaluate "SUM" (ValueType_String INT64) [b; c; a] = Continue 1%float
  /\ evaluate "SUM" (ValueType_String INT64) [a; b; c]
     <> evaluate "SUM" (ValueType_String INT64) [b; c; a].
Proof.
  cbv zeta. split; [| split; [| split]].
  - apply (Permutation_cons_append [_; _]).
  - vm_compute. reflexivity.
  - vm_compute. reflexivity.
  - intros H. apply (f_equal result_bits) in H. vm_compute in H. discriminate.
Qed.

Lemma sum_INT64_exact (points : list (option Point)) :
  Zsum_abs (int64_values points) < 2 ^ 53 ->
  evaluate "SUM" "INT64" points
  = Continue (Go.float64_of_int (Zsum (int64_values points))).
Proof.
  intros H. rewrite evaluate_SUM, sum_fold_map. f_equal.
  replace (map (normalized "INT64") points)
    with (map Go.float64_of_int (int64_values points))
    by (unfold int64_values; now rewrite map_map).
  change 0%float with (Go.float64_of_int 0).
  now rewrite float64_sum_exact.
Qed.

(** C6, amended. SUM is the float64 sum of the normalized values, added
    from left to right starting at 0.0.  Exchanging the first two points
    leaves it unchanged, and on an INT64 series whose magnitudes add up to
    less than 2^53 it is the arithmetic sum of the values and the same for
    every permutation of the points; beyond that a permutation can change
    it, float64 addition being commutative but not associative.  LAST returns
    the normalized value of the first point, so two sequences with the same
    first point have equal LAST results. *)
Theorem sum_order_and_last_first_point
  (valueType : string) (p q : option Point)
  (points points' rest rest' : list (option Point)) :
  evaluate "SUM" valueType points
    = Continue (fold_left PrimFloat.add
                  (map (fun x => getFloatValue valueType (GetValue x)) points) 0%float)
  /\ evaluate "SUM" valueType (p :: q :: rest) = evaluate "SUM" valueType (q :: p :: rest)
  /\ (Zsum_abs (int64_values points) < 2 ^ 53 ->
      evaluate "SUM" "INT64" points
        = Continue (Go.float64_of_int (Zsum (int64_values points)))
      /\ (Permutation points points' ->
          evaluate "SUM" "INT64" points' = evaluate "SUM" "INT64" points))
  /\ evaluate "LAST" valueType (p :: rest) = Continue (getFloatValue valueType (GetValue p))
  /\ evaluate "LAST" valueType (p :: rest) = evaluate "LAST" valueType (p :: rest').
Proof.
  refine (conj _ (conj _ (conj _ (conj eq_refl eq_refl)))).
  - rewrite evaluate_SUM. f_equal. apply sum_fold_map.
  - rewrite !evaluate_SUM. f_equal. cbn [fold_left]. unfold sum_step at 2 3 5 6.
    now rewrite add_zero_swap.
  - intros H. split; [now apply sum_INT64_exact |].
    intros P.
    assert (P' : Permutation (int64_values points) (int64_values points'))
      by (unfold int64_values; now apply Permutation_map).
    rewrite !sum_INT64_exact; [| exact H | now rewrite <- (Zsum_abs_Permutation _ _ P')].
    now rewrite (Zsum_Permutation _ _ P').
Qed.

Lemma sum_order_and_last_first_point_witness :
  let a := Some {| monitoringpb.Value := Some (Int64Value 3) |} in
  let b := Some {| monitoringpb.Value := Some (Int64Value (-5)) |} in
  let c := Some {| monitoringpb.Value := Some (Int64Value 10) |} in
  evaluate "SUM" "INT64" [a; b; c] = Continue 8%float
  /\ evaluate "SUM" "INT64" [c; a; b] = evaluate "SUM" "INT64" [a; b; c].
Proof.
  cbv zeta.
  destruct (sum_order_and_last_first_point "INT64" None None
              [ Some {| monitoringpb.Value := Some (Int64Value 3) |};
                Some {| monitoringpb.Value := Some (Int64Value (-5)) |};
                Some {| monitoringpb.Value := Some (Int64Value 10) |} ]
              [ Some {| monitoringpb.Value := Some (Int64Value 10) |};
                Some {| monitoringpb.Value := Some (Int64Value 3) |};
                Some {| monitoringpb.Value := Some (Int64Value (-5)) |} ]
              [] []) as (_ & _ & H & _).
  destruct H as [E P]; [reflexivity |].
  split.
  - rewrite E. reflexivity.
  - apply P. apply Permutation_sym. apply (Permutation_cons_append [_; _]).
Defined.

(** ** Perfdata and messages *)

Lemma append_nil_r (a : string) : a ++ "" = a.
Proof. induction a as [| x a IH]; cbn; [reflexivity | now rewrite IH]. Qed.

Lemma concat_cons (x : string) (l : list string) :
  String.concat "" (x :: l) = x ++ String.concat "" l.
Proof. destruct l; cbn; [now rewrite append_nil_r | reflexivity]. Qed.

Lemma perfdata_check (opts : Options) (v : Verdict) (element : Metric) :
  perfdata (check opts v element)
  = perfdata v ++ perf_token opts (Name element) (Value element).
Proof.
  unfold check.
  destruct ((0 <? Critical opts)%float && (Critical opts <=? Value element)%float
            && ((status v =? OK) || (status v =? WARNING))); [reflexivity |].
  destruct ((0 <? Warning opts)%float && (Warning opts <=? Value element)%float
            && (status v =? OK)); reflexivity.
Qed.

Lemma perfdata_fold (opts : Options) (metrics : list Metric) (v : Verdict) :
  perfdata (fold_left (check opts) metrics v)
  = perfdata v ++ String.concat "" (map (fun m => perf_token opts (Name m) (Value m)) metrics).
Proof.
  revert v. induction metrics as [| m ms IH]; intros v.
  - cbn. now rewrite append_nil_r.
  - cbn [fold_left map]. rewrite IH, perfdata_check, concat_cons.
    apply append_assoc.
Qed.

Lemma message_fold (opts : Options) (metrics : list Metric) (v : Verdict) :
  let v' := fold_left (check opts) metrics v in
  message v' = message v
  \/ exists m limit, In m metrics /\ (limit = Warning opts \/ limit = Critical opts)
       /\ message v' = breach_message (Name m) (Evalution opts) (Value m) limit.
Proof.
  cbv zeta. revert v. induction metrics as [| m ms IH]; intros v; cbn [fold_left].
  - now left.
  - destruct (IH (check opts v m)) as [E | (m' & limit & Hin & Hl & E)].
    + rewrite E.
      destruct (check_cases opts v m) as [C | [C | C]]; cbv zeta in C.
      * right. exists m, (Critical opts). split; [now left |]. split; [now right | tauto].
      * right. exists m, (Warning opts). split; [now left |]. split; [now left | tauto].
      * left. tauto.
    + right. exists m', limit. split; [now right |]. now split.
Qed.

(** [int(f)] keeps the integer part: for a finite [f = (-1)^s * m * 2^e]
    whose integer part [q] (the largest integer not above [m * 2^e]) is
    below 2^63, the result is [q] with the sign of [f]. *)
Lemma int_of_float64_truncates (f : float) (s : bool) (m : positive) (e q : Z) :
  Prim2SF f = S754_finite s m e ->
  (0 <= e -> q = Z.pos m * 2 ^ e) ->
  (e < 0 -> q * 2 ^ (- e) <= Z.pos m < (q + 1) * 2 ^ (- e)) ->
  q < 2 ^ 63 ->
  Go.int_of_float64 f = if s then - q else q.
Proof.
  intros E H0 H1 Hq. unfold Go.int_of_float64. rewrite E.
  assert (P63 : 0 < 2 ^ 63) by reflexivity.
  assert (A : (if 0 <=? e then Z.pos m * 2 ^ e else Z.pos m / 2 ^ (- e)) = q /\ 0 <= q).
  { destruct (Z.leb_spec 0 e) as [He | He].
    - rewrite (H0 He). split; [reflexivity |].
      apply Z.mul_nonneg_nonneg; [lia | now apply Z.pow_nonneg].
    - specialize (H1 He).
      assert (D : 0 < 2 ^ (- e)) by (apply Z.pow_pos_nonneg; lia).
      split; [| nia].
      symmetry. apply (Z.div_unique_pos _ _ q (Z.pos m - q * 2 ^ (- e))); lia. }
  destruct A as [-> Q0].
  destruct s.
  - destruct (Z.leb_spec (- 2 ^ 63) (- q)); destruct (Z.ltb_spec (- q) (2 ^ 63));
      cbn [andb]; lia.
  - destruct (Z.leb_spec (- 2 ^ 63) q); destruct (Z.ltb_spec q (2 ^ 63));
      cbn [andb]; lia.
Qed.

(** C7. The evaluation starts from status OK, message "Everything is OK" and
    perfdata "|".  Every metric, in input order and whether or not it
    breaches a threshold, adds the token
    "<name>=<value as %f>;<int(warning)>;<int(critical)> " to perfdata.  The
    message is the initial one or the breach message of one of the metrics,
    whose numeric fields are [int(value)] and [int(threshold)]: the values
    with their fraction discarded. *)
Theorem perfdata_for_every_metric_and_integer_message
  (opts : Options) (metrics : list Metric) :
  verdict_of opts [] = {| status := OK; message := "Everything is OK"; perfdata := "|" |}
  /\ perfdata (verdict_of opts metrics)
     = "|" ++ String.concat ""
         (map (fun m => Name m ++ "=" ++ Go.fmt_f (Value m)
                        ++ ";" ++ Go.fmt_d (Go.int_of_float64 (Warning opts))
                        ++ ";" ++ Go.fmt_d (Go.int_of_float64 (Critical opts)) ++ " ")
              metrics)
  /\ (message (verdict_of opts metrics) = "Everything is OK"
      \/ exists m limit,
           In m metrics /\ (limit = Warning opts \/ limit = Critical opts)
           /\ message (verdict_of opts metrics)
              = Name m ++ " " ++ Evalution opts
                ++ " value: " ++ Go.fmt_d (Go.int_of_float64 (Value m))
                ++ " over " ++ Go.fmt_d (Go.int_of_float64 limit))
  /\ (forall (f : float) (s : bool) (m : positive) (e q : Z),
        Prim2SF f = S754_finite s m e ->
        (0 <= e -> q = Z.pos m * 2 ^ e) ->
        (e < 0 -> q * 2 ^ (- e) <= Z.pos m < (q + 1) * 2 ^ (- e)) ->
        q < 2 ^ 63 ->
        Go.int_of_float64 f = if s then - q else q).
Proof.
  refine (conj eq_refl (conj _ (conj _ int_of_float64_truncates))).
  - unfold verdict_of. rewrite perfdata_fold. reflexivity.
  - exact (message_fold opts metrics init_verdict).
Qed.

Lemma perfdata_for_every_metric_and_integer_message_witness :
  let opts := {| Evalution := "LAST"; Critical := 10.5%float; Warning := 5.5%float |} in
  let metrics := [ {| Name := "a"; Value := 3.25%float |};
                   {| Name := "b"; Value := 12.75%float |} ] in
  perfdata (verdict_of opts metrics) = "|a=3.250000;5;10 b=12.750000;5;10 "
  /\ message (verdict_of opts metrics) = "b LAST value: 12 over 10"
  /\ Go.int_of_float64 (-12.75)%float = -12.
Proof.
  cbv zeta.
  destruct (perfdata_for_every_metric_and_integer_message
              {| Evalution := "LAST"; Critical := 10.5%float; Warning := 5.5%float |}
              [ {| Name := "a"; Value := 3.25%float |};
                {| Name := "b"; Value := 12.75%float |} ]) as (_ & P & _ & T).
  split; [rewrite P; vm_compute; reflexivity |].
  split; [vm_compute; reflexivity |].
  apply (T (-12.75)%float true 7177611906121728%positive (-49) 12).
  - vm_compute. reflexivity.
  - intros H. exfalso. revert H. vm_compute. intros H. now apply H.
  - intros _. split; [discriminate | reflexivity].
  - reflexivity.
Defined.

(** C8. For every value type, an empty point sequence gives 0.0 under SUM
    and under MAX, and a policy other than LAST, SUM and MAX gives 0.0 on any
    sequence.  Under LAST the first element is read without a guard: the
    empty sequence panics, and this is the only way [evaluate] fails to
    return a value. *)
Theorem evaluate_empty_series_and_unknown_policy (valueType : string) :
  evaluate "SUM" valueType [] = Continue 0%float
  /\ evaluate "MAX" valueType [] = Continue 0%float
  /\ (forall policy points,
        policy <> "LAST" -> policy <> "SUM" -> policy <> "MAX" ->
        evaluate policy valueType points = Continue 0%float)
  /\ evaluate "LAST" valueType [] = Panic
  /\ (forall policy points,
        (policy = "LAST" -> points <> []) ->
        exists x, evaluate policy valueType points = Continue x)
  /\ (forall policy points,
        evaluate policy valueType points = Panic <-> policy = "LAST" /\ points = []).
Proof.
  refine (conj eq_refl (conj eq_refl (conj (evaluate_other valueType)
            (conj eq_refl _)))).
  assert (T : forall policy points,
             evaluate policy valueType points = Panic <-> policy = "LAST" /\ points = []).
  { intros policy points. unfold evaluate.
    destruct (String.eqb_spec policy "LAST") as [-> | N].
    - destruct points; split; intros H; try discriminate; try tauto.
      destruct H as [_ H]. discriminate.
    - destruct (String.eqb policy "SUM"); [| destruct (String.eqb policy "MAX")];
        split; intros H; try discriminate; tauto. }
  split; [| exact T].
  intros policy points H.
  destruct (evaluate policy valueType points) as [x | e |] eqn:E.
  - now exists x.
  - exfalso. revert E. unfold evaluate.
    destruct (String.eqb policy "LAST"); [destruct points |];
      [| | destruct (String.eqb policy "SUM"); [| destruct (String.eqb policy "MAX")]];
      discriminate.
  - apply T in E. destruct E as [E1 E2]. now elim (H E1).
Qed.

Lemma evaluate_empty_series_and_unknown_policy_witness :
  evaluate "AVG" "DOUBLE" [Some {| monitoringpb.Value := Some (DoubleValue 7%float) |}]
    = Continue 0%float
  /\ exists x, evaluate "LAST" "DOUBLE"
                 [Some {| monitoringpb.Value := Some (DoubleValue 7%float) |}] = Continue x.
Proof.
  destruct (evaluate_empty_series_and_unknown_policy "DOUBLE") as (_ & _ & O & _ & T & _).
  split.
  - apply O; intros H; discriminate H.
  - apply T. intros _ H. discriminate H.
Defined.

(** ** The fetch loop and the emptiness test *)


Lemma total_points_nonneg (groups : list TimeSeries) : 0 <= total_points groups.
Proof. unfold total_points. induction groups as [| g gs IH]; cbn [fold_right]; lia. Qed.


Section Fetch.

Variable opts : Options.

(** An error of the iterator ends the process as soon as [Next] returns it. *)
Lemma fetch_error (err : string) (rest : list Next) (metrics : list Metric) (length : Z) :
  fetch opts (Err err :: rest) metrics length
  = Exit (output UNKNOWN "Failed to fetch time series.").
Proof. reflexivity. Qed.

(** A series that aggregates to [x] adds one metric and its points. *)
Lemma fetch_step (resp : TimeSeries) (x : float) (rest : list Next)
  (metrics : list Metric) (length : Z) :
  evaluate (Evalution opts) (ValueType_String (ValueType_ resp)) (Points resp) = Continue x ->
  fetch opts (Resp resp :: rest) metrics length
  = fetch opts rest
      (metrics ++ [ {| Name := metric_name_of (Labels resp); Value := x |} ])
      (length + Z.of_nat (List.length (Points resp))).
Proof. intros E. cbn [fetch]. rewrite E. reflexivity. Qed.


(** Series that all aggregate are all gathered, one metric each, and all
    their points are counted before the loop goes on with [rest]. *)
Lemma fetch_groups (groups : list TimeSeries) (rest : list Next) :
  Forall (fun g => Evalution opts = "LAST" -> Points g <> []) groups ->
  forall (metrics : list Metric) (length : Z),
  exists gathered : list Metric,
    List.length gathered = List.length groups
    /\ fetch opts (map Resp groups ++ rest) metrics length
       = fetch opts rest (metrics ++ gathered) (length + total_points groups).
Proof.
  induction 1 as [| g gs Hg _ IH]; intros metrics length.
  - exists []. cbn. rewrite app_nil_r, Z.add_0_r. now split.
  - destruct (evaluate (Evalution opts) (ValueType_String (ValueType_ g)) (Points g))
      as [x | e |] eqn:E.
    + destruct (IH (metrics ++ [ {| Name := metric_name_of (Labels g); Value := x |} ])%list
                   (length + Z.of_nat (List.length (Points g)))) as (ms & Hl & Hf).
      exists ({| Name := metric_name_of (Labels g); Value := x |} :: ms).
      split; [cbn; now rewrite Hl |].
      cbn [map app]. rewrite (fetch_step g x _ _ _ E), Hf.
      rewrite <- app_assoc. cbn [app total_points fold_right].
      f_equal. unfold total_points. lia.
    + exfalso. revert E. unfold evaluate.
      destruct (String.eqb (Evalution opts) "LAST"); [destruct (Points g) |];
        [| | destruct (String.eqb (Evalution opts) "SUM");
             [| destruct (String.eqb (Evalution opts) "MAX")]];
        discriminate.
    + exfalso. revert E. unfold evaluate.
      destruct (String.eqb_spec (Evalution opts) "LAST") as [L | L].
      * destruct (Points g) eqn:P; [now elim (Hg L) | discriminate].
      * destruct (String.eqb (Evalution opts) "SUM");
          [| destruct (String.eqb (Evalution opts) "MAX")]; discriminate.
Qed.

(** When no series panics, an error of the iterator is reported as
    UNKNOWN, whatever comes after it. *)
Lemma main_reports_fetch_error
  (evaluation : Options -> list Metric -> Exited)
  (groups : list TimeSeries) (err : string) (rest : list Next) :
  Forall (fun g => Evalution opts = "LAST" -> Points g <> []) groups ->
  main_with evaluation opts (map Resp groups ++ Err err :: rest)
  = Exit (output UNKNOWN "Failed to fetch time series.").
Proof.
  intros H. unfold main_with.
  destruct (fetch_groups groups (Err err :: rest) H [] 0) as (ms & _ & ->).
  reflexivity.
Qed.

(** When no series panics and there is no point at all, the run ends with
    UNKNOWN "Time series is empty.", whatever follows the test in [main]. *)
Lemma main_reports_empty
  (evaluation : Options -> list Metric -> Exited) (groups : list TimeSeries) :
  Forall (fun g => Evalution opts = "LAST" -> Points g <> []) groups ->
  total_points groups = 0 ->
  main_with evaluation opts (map Resp groups)
  = Exit (output UNKNOWN "Time series is empty.").
Proof.
  intros H T. unfold main_with.
  destruct (fetch_groups groups [] H [] 0) as (ms & _ & E).
  rewrite app_nil_r in E. rewrite E, T. reflexivity.
Qed.



End Fetch.

(** C9, evaluated where the code departs from it.  Under LAST a response
    whose only series has no point has zero points in total, yet the run
    panics in [evaluate] and reports nothing; the same series followed by an
    error of the iterator panics too, so the error is never reported.  Under
    SUM, the same response is reported as UNKNOWN "Time series is empty.",
    and the error as UNKNOWN "Failed to fetch time series.". *)
Theorem unknown_report_lost_under_LAST :
  let g := {| ValueType_ := DOUBLE; Points := []; Labels := [("instance_id", "i-1")] |} in
  let last := {| Evalution := "LAST"; Critical := 0%float; Warning := 0%float |} in
  let sum := {| Evalution := "SUM"; Critical := 0%float; Warning := 0%float |} in
  total_points [g] = 0
  /\ main last [Resp g] = Panic
  /\ main last [Resp g; Err "rpc error"] = Panic
  /\ main sum [Resp g] = Exit (output UNKNOWN "Time series is empty.")
  /\ main sum [Resp g; Err "rpc error"] = Exit (output UNKNOWN "Failed to fetch time series.").
Proof. cbv zeta. repeat split. Qed.






(** ** Further properties *)

(** X1. When no series makes [evaluate] panic (the policy is not LAST, or
    every series has a point), an error returned by the iterator ends the run
    with UNKNOWN "Failed to fetch time series.", and a response without any
    point ends it with UNKNOWN "Time series is empty."; in both cases what
    follows the emptiness test in [main] plays no part. *)
Theorem unknown_reports_when_no_series_panics
  (evaluation : Options -> list Metric -> Exited)
  (opts : Options) (groups : list TimeSeries) (err : string) (rest : list Next) :
  Forall (fun g => Evalution opts = "LAST" -> Points g <> []) groups ->
  main_with evaluation opts (map Resp groups ++ Err err :: rest)
    = Exit {| stdout := "UNKNOWN - Failed to fetch time series." ++ Go.newline;
              exit_code := 3 |}
  /\ (total_points groups = 0 ->
      main_with evaluation opts (map Resp groups)
        = Exit {| stdout := "UNKNOWN - Time series is empty." ++ Go.newline;
                  exit_code := 3 |}).
Proof.
  intros H. split.
  - now rewrite main_reports_fetch_error.
  - intros T. now rewrite main_reports_empty.
Qed.

Lemma unknown_reports_when_no_series_panics_witness :
  let g := {| ValueType_ := DOUBLE; Points := []; Labels := [] |} in
  let opts := {| Evalution := "MAX"; Critical := 10%float; Warning := 5%float |} in
  main opts [Resp g; Err "deadline exceeded"]
    = Exit {| stdout := "UNKNOWN - Failed to fetch time series." ++ Go.newline;
              exit_code := 3 |}
  /\ main opts [Resp g]
    = Exit {| stdout := "UNKNOWN - Time series is empty." ++ Go.newline;
              exit_code := 3 |}.
Proof.
  cbv zeta.
  destruct (unknown_reports_when_no_series_panics report
              {| Evalution := "MAX"; Critical := 10%float; Warning := 5%float |}
              [ {| ValueType_ := DOUBLE; Points := []; Labels := [] |} ]
              "deadline exceeded" []) as [E T].
  - repeat constructor. discriminate.
  - split; [exact E | apply T; reflexivity].
Defined.

(** X2. The name of a series is the value of the last label visited once
    [project_id] is set aside, and the empty string when no label is left. *)
Theorem metric_name_is_last_remaining_label (labels : list (string * string)) :
  metric_name_of labels
  = last (map snd (filter (fun kv => negb (String.eqb (fst kv) "project_id")) labels)) "".
Proof.
  unfold metric_name_of, delete_project_id.
  generalize (filter (fun kv => negb (String.eqb (fst kv) "project_id")) labels).
  intros l.
  assert (D : forall (m : list string) (b d1 d2 : string),
             last (b :: m) d1 = last (b :: m) d2).
  { induction m as [| c m IHm]; intros b d1 d2; [reflexivity |].
    change (last (c :: m) d1 = last (c :: m) d2). apply IHm. }
  generalize "". induction l as [| kv l IH]; intros d; [reflexivity |].
  cbn [fold_left map]. rewrite IH.
  destruct l as [| kv' l']; [reflexivity |].
  cbn [map]. change (last (snd kv :: snd kv' :: map snd l') d)
    with (last (snd kv' :: map snd l') d). apply D.
Qed.

(** X3. The value normalizer reads the field that goes with the value type:
    the integer converted to float64 for INT64, the double for DOUBLE, the
    mean for DISTRIBUTION; every other type gives 0.0. *)
Theorem getFloatValue_by_type (t : ValueType) (v : option TypedValue) :
  getFloatValue (ValueType_String t) v
  = match t with
    | INT64 => Go.float64_of_int (GetInt64Value v)
    | DOUBLE => GetDoubleValue v
    | DISTRIBUTION => GetMean (GetDistributionValue v)
    | VALUE_TYPE_UNSPECIFIED | BOOL | STRING | MONEY => 0%float
    end.
Proof. destruct t; reflexivity. Qed.

(** ** The order of [float64] and NaN *)

Section FloatOrder.

Lemma SFcompare_refl (x : spec_float) : x <> S754_nan -> SFcompare x x = Some Eq.
Proof.
  destruct x as [s | s | | s m e]; intros H; try reflexivity; try congruence.
  - destruct s; reflexivity.
  - cbn. rewrite Z.compare_refl.
    change (Pos.compare_cont Eq m m) with (m ?= m)%positive.
    rewrite Pos.compare_refl. destruct s; reflexivity.
Qed.

Lemma SFcompare_antisym (x y : spec_float) :
  SFcompare y x = option_map CompOpp (SFcompare x y).
Proof.
  destruct x as [sx | sx | | sx mx ex], y as [sy | sy | | sy my ey];
    try reflexivity; try (destruct sx; reflexivity); try (destruct sy; reflexivity);
    try (destruct sx, sy; reflexivity).
  cbn. rewrite (Z.compare_antisym ex ey).
  change (Pos.compare_cont Eq my mx) with (my ?= mx)%positive.
  change (Pos.compare_cont Eq mx my) with (mx ?= my)%positive.
  rewrite (Pos.compare_antisym mx my).
  destruct sx, sy; try reflexivity;
    destruct (ex ?= ey); try reflexivity; cbn;
    destruct (mx ?= my)%positive; reflexivity.
Qed.

Lemma SFleb_trans (x y z : spec_float) :
  SFleb x y = true -> SFleb y z = true -> SFleb x z = true.
Proof.
  unfold SFleb.
  destruct x as [sx | sx | | sx mx ex], y as [sy | sy | | sy my ey],
           z as [sz | sz | | sz mz ez];
    cbn; try discriminate; try reflexivity;
    try (destruct sx; cbn; congruence); try (destruct sy; cbn; congruence);
    try (destruct sz; cbn; congruence);
    try (destruct sx, sy; cbn; congruence); try (destruct sy, sz; cbn; congruence);
    try (destruct sx, sz; cbn; congruence);
    try (destruct sx, sy, sz; cbn; congruence).
  change (Pos.compare_cont Eq mx my) with (mx ?= my)%positive.
  change (Pos.compare_cont Eq my mz) with (my ?= mz)%positive.
  change (Pos.compare_cont Eq mx mz) with (mx ?= mz)%positive.
  destruct sx, sy, sz; try discriminate; try reflexivity;
    destruct (Z.compare_spec ex ey), (Z.compare_spec ey ez), (Z.compare_spec ex ez);
    try discriminate; try reflexivity; try lia; cbn;
    destruct (Pos.compare_spec mx my), (Pos.compare_spec my mz), (Pos.compare_spec mx mz);
    cbn; try discriminate; try reflexivity; lia.
Qed.

Lemma is_nan_spec (x : float) : is_nan x = true <-> Prim2SF x = S754_nan.
Proof.
  unfold is_nan. rewrite eqb_spec. unfold SFeqb. split.
  - intros H. destruct (Prim2SF x) as [s | s | | s m e] eqn:E; [| | reflexivity |];
      rewrite SFcompare_refl in H by discriminate; discriminate.
  - intros ->. reflexivity.
Qed.

Lemma not_nan_spec (x : float) : is_nan x = false <-> Prim2SF x <> S754_nan.
Proof.
  rewrite <- is_nan_spec. destruct (is_nan x); split; congruence.
Qed.

Lemma is_nan_eq (x : float) : is_nan x = true -> x = nan.
Proof.
  intros H. apply is_nan_spec in H. rewrite <- (SF2Prim_Prim2SF x), H. reflexivity.
Qed.

Lemma leb_refl (x : float) : is_nan x = false -> (x <=? x)%float = true.
Proof.
  intros H. apply not_nan_spec in H. rewrite leb_spec. unfold SFleb.
  now rewrite SFcompare_refl.
Qed.

Lemma ltb_leb (x y : float) : (x <? y)%float = true -> (x <=? y)%float = true.
Proof.
  rewrite ltb_spec, leb_spec. unfold SFltb, SFleb.
  destruct (SFcompare (Prim2SF x) (Prim2SF y)) as [[| |] |]; congruence.
Qed.

Lemma not_ltb_leb (x y : float) :
  is_nan x = false -> is_nan y = false ->
  (x <? y)%float = false -> (y <=? x)%float = true.
Proof.
  intros Hx Hy. apply not_nan_spec in Hx, Hy.
  rewrite ltb_spec, leb_spec. unfold SFltb, SFleb.
  rewrite (SFcompare_antisym (Prim2SF x) (Prim2SF y)).
  destruct (Prim2SF x) as [sx | sx | | sx mx ex], (Prim2SF y) as [sy | sy | | sy my ey];
    try congruence;
    match goal with
    | |- context [SFcompare ?a ?b] => destruct (SFcompare a b) as [[| |] |] eqn:C
    end; cbn; try congruence; discriminate C.
Qed.

Lemma leb_trans (x y z : float) :
  (x <=? y)%float = true -> (y <=? z)%float = true -> (x <=? z)%float = true.
Proof. rewrite !leb_spec. apply SFleb_trans. Qed.

(** No comparison with NaN holds. *)
Lemma leb_nan_r (x y : float) : is_nan y = true -> (x <=? y)%float = false.
Proof.
  intros H. apply is_nan_spec in H. rewrite leb_spec, H. unfold SFleb.
  destruct (Prim2SF x); reflexivity.
Qed.

Lemma ltb_nan_l (x y : float) : is_nan x = true -> (x <? y)%float = false.
Proof.
  intros H. apply is_nan_spec in H. rewrite ltb_spec, H. reflexivity.
Qed.

Lemma ltb_nan_r (x y : float) : is_nan y = true -> (x <? y)%float = false.
Proof.
  intros H. apply is_nan_spec in H. rewrite ltb_spec, H. unfold SFltb.
  destruct (Prim2SF x); reflexivity.
Qed.

(** NaN absorbs addition. *)
Lemma add_nan_l (y : float) : (nan + y)%float = nan.
Proof. apply Prim2SF_inj. rewrite add_spec. reflexivity. Qed.

Lemma add_nan_r (x : float) : (x + nan)%float = nan.
Proof.
  apply Prim2SF_inj. rewrite add_spec.
  change (Prim2SF nan) with S754_nan. destruct (Prim2SF x); reflexivity.
Qed.

End FloatOrder.

(** ** The final status, by breaches *)

Section FinalStatus.

Variable opts : Options.

Lemma check_status (v : Verdict) (element : Metric) :
  status (check opts v element)
  = if breaches (Critical opts) (Value element)
       && ((status v =? OK) || (status v =? WARNING))
    then CRITICAL
    else if breaches (Warning opts) (Value element) && (status v =? OK)
    then WARNING
    else status v.
Proof.
  unfold check, breaches.
  destruct ((0 <? Critical opts)%float && (Critical opts <=? Value element)%float
            && ((status v =? OK) || (status v =? WARNING))); [reflexivity |].
  destruct ((0 <? Warning opts)%float && (Warning opts <=? Value element)%float
            && (status v =? OK)); reflexivity.
Qed.

Lemma fold_status (metrics : list Metric) (v : Verdict) :
  (status v = OK \/ status v = WARNING \/ status v = CRITICAL) ->
  status (fold_left (check opts) metrics v)
  = if status v =? CRITICAL then CRITICAL
    else if existsb (fun m => breaches (Critical opts) (Value m)) metrics then CRITICAL
    else if status v =? WARNING then WARNING
    else if existsb (fun m => breaches (Warning opts) (Value m)) metrics then WARNING
    else OK.
Proof.
  revert v. induction metrics as [| m ms IH]; intros v R; cbn [fold_left existsb].
  - destruct R as [-> | [-> | ->]]; reflexivity.
  - rewrite (IH _ (status_range_step opts v m R)), check_status.
    destruct (breaches (Critical opts) (Value m)), (breaches (Warning opts) (Value m));
      destruct R as [-> | [-> | ->]]; cbn;
      destruct (existsb (fun m => breaches (Critical opts) (Value m)) ms);
      destruct (existsb (fun m => breaches (Warning opts) (Value m)) ms); reflexivity.
Qed.

Lemma existsb_Permutation {A : Type} (f : A -> bool) (l l' : list A) :
  Permutation l l' -> existsb f l = existsb f l'.
Proof.
  induction 1 as [| x l l' _ IH | x y l | l l' l'' _ IH1 _ IH2]; cbn.
  - reflexivity.
  - now rewrite IH.
  - destruct (f x), (f y); reflexivity.
  - congruence.
Qed.

Lemma quiet_fold (metrics : list Metric) (v : Verdict) :
  existsb (fun m => breaches (Critical opts) (Value m)) metrics = false ->
  existsb (fun m => breaches (Warning opts) (Value m)) metrics = false ->
  status (fold_left (check opts) metrics v) = status v
  /\ message (fold_left (check opts) metrics v) = message v.
Proof.
  revert v. induction metrics as [| m ms IH]; intros v Hc Hw; cbn [fold_left].
  - now split.
  - cbn [existsb] in Hc, Hw. apply orb_false_elim in Hc, Hw.
    destruct Hc as [Hc Hcs], Hw as [Hw Hws].
    destruct (IH (check opts v m) Hcs Hws) as [I1 I2].
    assert (S : status (check opts v m) = status v /\ message (check opts v m) = message v).
    { unfold breaches in Hc, Hw. unfold check. rewrite Hc, Hw. cbn. now split. }
    destruct S as [S1 S2]. split; congruence.
Qed.

End FinalStatus.

(** X4. The final status depends only on which thresholds are reached by
    some metric: CRITICAL when some value reaches an active critical
    threshold, otherwise WARNING when some value reaches an active warning
    threshold, otherwise OK.  Hence it is the same for every order of the
    metrics. *)
Theorem final_status_by_breaches (opts : Options) (metrics metrics' : list Metric) :
  status (verdict_of opts metrics)
  = (if existsb (fun m => (0 <? Critical opts)%float && (Critical opts <=? Value m)%float)
          metrics
     then CRITICAL
     else if existsb (fun m => (0 <? Warning opts)%float && (Warning opts <=? Value m)%float)
               metrics
     then WARNING
     else OK)
  /\ (Permutation metrics metrics' ->
      status (verdict_of opts metrics') = status (verdict_of opts metrics)).
Proof.
  assert (F : forall ms, status (verdict_of opts ms)
              = if existsb (fun m => breaches (Critical opts) (Value m)) ms then CRITICAL
                else if existsb (fun m => breaches (Warning opts) (Value m)) ms then WARNING
                else OK).
  { intros ms. unfold verdict_of. rewrite fold_status by (now left). reflexivity. }
  split.
  - apply F.
  - intros P. rewrite !F.
    now rewrite (existsb_Permutation _ _ _ P), (existsb_Permutation _ _ _ P).
Qed.

Lemma final_status_by_breaches_witness :
  let opts := {| Evalution := "MAX"; Critical := 10%float; Warning := 5%float |} in
  let a := {| Name := "a"; Value := 7%float |} in
  let b := {| Name := "b"; Value := 12%float |} in
  status (verdict_of opts [b; a]) = status (verdict_of opts [a; b])
  /\ status (verdict_of opts [a; b]) = CRITICAL.
Proof.
  cbv zeta.
  destruct (final_status_by_breaches
              {| Evalution := "MAX"; Critical := 10%float; Warning := 5%float |}
              [ {| Name := "a"; Value := 7%float |}; {| Name := "b"; Value := 12%float |} ]
              [ {| Name := "b"; Value := 12%float |}; {| Name := "a"; Value := 7%float |} ])
    as [S P].
  split; [apply P, perm_swap | rewrite S; reflexivity].
Defined.

(** X5. The message is that of the first metric that decides the final
    status: the first one to reach the critical threshold when there is one,
    otherwise the first one to reach the warning threshold, otherwise the
    initial message. *)
Theorem message_of_first_breach
  (opts : Options) (before after : list Metric) (element : Metric) :
  let crit := fun m => (0 <? Critical opts)%float && (Critical opts <=? Value m)%float in
  let warn := fun m => (0 <? Warning opts)%float && (Warning opts <=? Value m)%float in
  let metrics := (before ++ element :: after)%list in
  (existsb crit before = false -> crit element = true ->
   message (verdict_of opts metrics)
   = breach_message (Name element) (Evalution opts) (Value element) (Critical opts))
  /\ (existsb crit metrics = false -> existsb warn before = false -> warn element = true ->
      message (verdict_of opts metrics)
      = breach_message (Name element) (Evalution opts) (Value element) (Warning opts))
  /\ (existsb crit metrics = false -> existsb warn metrics = false ->
      message (verdict_of opts metrics) = "Everything is OK").
Proof.
  cbv zeta.
  change (fun m => (0 <? Critical opts)%float && (Critical opts <=? Value m)%float)
    with (fun m => breaches (Critical opts) (Value m)).
  change (fun m => (0 <? Warning opts)%float && (Warning opts <=? Value m)%float)
    with (fun m => breaches (Warning opts) (Value m)).
  pose proof (check_cases opts (verdict_of opts before) element) as C. cbv zeta in C.
  fold (breaches (Critical opts) (Value element)) in C.
  fold (breaches (Warning opts) (Value element)) in C.
  assert (Sb : status (verdict_of opts before)
               = if existsb (fun m => breaches (Critical opts) (Value m)) before then CRITICAL
                 else if existsb (fun m => breaches (Warning opts) (Value m)) before
                 then WARNING else OK).
  { unfold verdict_of. rewrite fold_status by (now left). reflexivity. }
  refine (conj _ (conj _ _)).
  - intros Hb He. rewrite Hb in Sb.
    rewrite verdict_of_app. cbn [fold_left].
    destruct C as [C | [C | C]].
    + destruct C as (_ & _ & Cs & Cm).
      destruct (critical_is_final opts after _ Cs) as [_ M]. congruence.
    + destruct C as ([C | [C1 C2]] & _); [congruence |].
      destruct (existsb (fun m => breaches (Warning opts) (Value m)) before); congruence.
    + destruct C as ([C | [C1 C2]] & _); [congruence |].
      destruct (existsb (fun m => breaches (Warning opts) (Value m)) before); congruence.
  - intros Hc Hb He.
    assert (Sf : status (verdict_of opts (before ++ element :: after)) <> CRITICAL).
    { unfold verdict_of. rewrite fold_status by (now left). cbn [status init_verdict].
      rewrite Hc. cbn.
      destruct (existsb (fun m => breaches (Warning opts) (Value m))
                  (before ++ element :: after)); discriminate. }
    rewrite existsb_app in Hc. apply orb_false_elim in Hc. destruct Hc as [Hcb Hc].
    cbn [existsb] in Hc. apply orb_false_elim in Hc. destruct Hc as [Hce Hca].
    rewrite Hcb, Hb in Sb.
    rewrite verdict_of_app in Sf |- *. cbn [fold_left] in Sf |- *.
    destruct C as [C | [C | C]].
    + destruct C as (C & _). congruence.
    + destruct C as (_ & _ & _ & Cs & Cm).
      destruct (warning_only_upgrades opts after _ Cs) as [[_ M] | M]; congruence.
    + destruct C as (_ & [C | C] & _); congruence.
  - intros Hc Hw. unfold verdict_of.
    now destruct (quiet_fold opts (before ++ element :: after) init_verdict Hc Hw).
Qed.

Lemma message_of_first_breach_witness :
  let opts := {| Evalution := "SUM"; Critical := 10%float; Warning := 5%float |} in
  let a := {| Name := "a"; Value := 7%float |} in
  let b := {| Name := "b"; Value := 12%float |} in
  let c := {| Name := "c"; Value := 40%float |} in
  message (verdict_of opts [a; b; c]) = "b SUM value: 12 over 10".
Proof.
  cbv zeta.
  destruct (message_of_first_breach
              {| Evalution := "SUM"; Critical := 10%float; Warning := 5%float |}
              [ {| Name := "a"; Value := 7%float |} ]
              [ {| Name := "c"; Value := 40%float |} ]
              {| Name := "b"; Value := 12%float |}) as (H & _).
  cbv zeta in H. exact (eq_trans (H eq_refl eq_refl) eq_refl).
Defined.

(** ** Thresholds at their edges *)

Lemma pos_not_nan (c : float) : (0 <? c)%float = true -> is_nan c = false.
Proof.
  intros H. destruct (is_nan c) eqn:N; [| reflexivity].
  rewrite (ltb_nan_r 0 c N) in H. discriminate.
Qed.

Lemma no_breach_at_most_zero (limit value : float) :
  (value <=? 0)%float = true \/ is_nan value = true ->
  breaches limit value = false.
Proof.
  intros H. unfold breaches.
  destruct (0 <? limit)%float eqn:P; [| reflexivity].
  destruct (limit <=? value)%float eqn:L; [| reflexivity].
  exfalso. destruct H as [H | H].
  - pose proof (leb_trans _ _ _ L H) as T.
    apply le_zero_not_pos in T. congruence.
  - rewrite (leb_nan_r limit value H) in L. discriminate.
Qed.

(** X6. Thresholds are inclusive: from a status that is not yet CRITICAL, a
    value equal to an active critical threshold gives CRITICAL; from OK, a
    value equal to an active warning threshold gives WARNING when it does
    not reach an active critical threshold. *)
Theorem threshold_is_inclusive (opts : Options) (v : Verdict) (name : string) :
  ((0 <? Critical opts)%float = true ->
   status v = OK \/ status v = WARNING ->
   status (check opts v {| Name := name; Value := Critical opts |}) = CRITICAL)
  /\ ((0 <? Warning opts)%float = true ->
      (0 <? Critical opts)%float && (Critical opts <=? Warning opts)%float = false ->
      status v = OK ->
      status (check opts v {| Name := name; Value := Warning opts |}) = WARNING).
Proof.
  split.
  - intros P S. rewrite check_status. cbn [Value]. unfold breaches at 1.
    rewrite P, (leb_refl _ (pos_not_nan _ P)).
    destruct S as [-> | ->]; reflexivity.
  - intros P C S. rewrite check_status. cbn [Value]. unfold breaches.
    rewrite C, P, (leb_refl _ (pos_not_nan _ P)), S. reflexivity.
Qed.

Lemma threshold_is_inclusive_witness :
  let opts := {| Evalution := "MAX"; Critical := 10%float; Warning := 5%float |} in
  status (check opts init_verdict {| Name := "n"; Value := 10%float |}) = CRITICAL
  /\ status (check opts init_verdict {| Name := "n"; Value := 5%float |}) = WARNING.
Proof.
  cbv zeta.
  destruct (threshold_is_inclusive
              {| Evalution := "MAX"; Critical := 10%float; Warning := 5%float |}
              init_verdict "n") as [C W].
  split.
  - apply C; [reflexivity | now left].
  - apply W; reflexivity.
Defined.

(** X7. A value that is zero, negative or NaN reaches no threshold: a
    metric list made of such values ends with status OK and the message
    "Everything is OK", whatever the thresholds. *)
Theorem values_at_most_zero_never_alert (opts : Options) (metrics : list Metric) :
  Forall (fun m => (Value m <=? 0)%float = true \/ is_nan (Value m) = true) metrics ->
  status (verdict_of opts metrics) = OK
  /\ message (verdict_of opts metrics) = "Everything is OK".
Proof.
  intros H.
  assert (Q : forall limit, existsb (fun m => breaches limit (Value m)) metrics = false).
  { intros limit. induction H as [| m ms Hm _ IH]; cbn [existsb]; [reflexivity |].
    now rewrite (no_breach_at_most_zero limit (Value m) Hm), IH. }
  exact (quiet_fold opts metrics init_verdict (Q _) (Q _)).
Qed.

Lemma values_at_most_zero_never_alert_witness :
  let opts := {| Evalution := "SUM"; Critical := 1%float; Warning := 0.5%float |} in
  let metrics := [ {| Name := "a"; Value := nan |}; {| Name := "b"; Value := (-3)%float |};
                   {| Name := "c"; Value := 0%float |} ] in
  status (verdict_of opts metrics) = OK.
Proof.
  cbv zeta.
  apply (values_at_most_zero_never_alert
           {| Evalution := "SUM"; Critical := 1%float; Warning := 0.5%float |}
           [ {| Name := "a"; Value := nan |}; {| Name := "b"; Value := (-3)%float |};
             {| Name := "c"; Value := 0%float |} ]).
  repeat constructor; cbn [Value]; (now left) || (now right).
Defined.

(** ** MAX and SUM in the presence of NaN *)

Section AggregatorOrder.

Variable valueType : string.

Lemma max_step_nan (ret : float) (p : option Point) :
  is_nan (normalized valueType p) = true -> max_step valueType ret p = nan.
Proof.
  intros H. unfold max_step. fold (normalized valueType p).
  rewrite (ltb_nan_l _ ret H). now apply is_nan_eq.
Qed.

Lemma max_step_after_nan (p : option Point) :
  max_step valueType nan p = normalized valueType p.
Proof.
  unfold max_step. fold (normalized valueType p).
  now rewrite (ltb_nan_r (normalized valueType p) nan eq_refl).
Qed.

(** The invariant of the MAX loop on values that are not NaN. *)
Lemma max_fold_bound (points : list (option Point)) (ret : float) :
  Forall (fun p => is_nan (normalized valueType p) = false) points ->
  is_nan ret = false ->
  let r := fold_left (max_step valueType) points ret in
  is_nan r = false
  /\ (ret <=? r)%float = true
  /\ Forall (fun p => (normalized valueType p <=? r)%float = true) points
  /\ (r = ret \/ In r (map (normalized valueType) points)).
Proof.
  cbv zeta. intros H. revert ret.
  induction H as [| p ps Hp _ IH]; intros ret Hr; cbn [fold_left map].
  - split; [exact Hr |]. split; [now apply leb_refl |]. split; [constructor | now left].
  - assert (S : is_nan (max_step valueType ret p) = false
                /\ (ret <=? max_step valueType ret p)%float = true
                /\ (normalized valueType p <=? max_step valueType ret p)%float = true
                /\ (max_step valueType ret p = ret
                    \/ max_step valueType ret p = normalized valueType p)).
    { unfold max_step. fold (normalized valueType p).
      destruct (normalized valueType p <? ret)%float eqn:L.
      - split; [exact Hr |]. split; [now apply leb_refl |].
        split; [now apply ltb_leb | now left].
      - split; [exact Hp |]. split; [now apply not_ltb_leb |].
        split; [now apply leb_refl | now right]. }
    destruct S as (S1 & S2 & S3 & S4).
    destruct (IH _ S1) as (I1 & I2 & I3 & I4).
    split; [exact I1 |]. split; [exact (leb_trans _ _ _ S2 I2) |].
    split; [constructor; [exact (leb_trans _ _ _ S3 I2) | exact I3] |].
    destruct I4 as [I4 | I4]; [| right; now right].
    rewrite I4. destruct S4 as [-> | ->]; [now left | right; now left].
Qed.

Lemma sum_fold_nan (points : list (option Point)) :
  fold_left (sum_step valueType) points nan = nan.
Proof.
  induction points as [| p ps IH]; cbn [fold_left]; [reflexivity |].
  unfold sum_step at 2. now rewrite add_nan_l.
Qed.

End AggregatorOrder.

(** X8. On a series without NaN, MAX returns an upper bound of the values
    that is not below 0.0 and is either 0.0 or one of the values: the
    maximum of the values and zero. *)
Theorem max_is_greatest_value_or_zero (valueType : string) (points : list (option Point)) :
  Forall (fun p => is_nan (getFloatValue valueType (GetValue p)) = false) points ->
  exists r : float,
    evaluate "MAX" valueType points = Continue r
    /\ (0 <=? r)%float = true
    /\ Forall (fun p => (getFloatValue valueType (GetValue p) <=? r)%float = true) points
    /\ (r = 0%float
        \/ In r (map (fun p => getFloatValue valueType (GetValue p)) points)).
Proof.
  intros H.
  destruct (max_fold_bound valueType points 0%float H eq_refl) as (_ & B & U & A).
  exists (fold_left (max_step valueType) points 0%float).
  split; [apply evaluate_MAX |]. split; [exact B |]. split; [exact U | exact A].
Qed.

Lemma max_is_greatest_value_or_zero_witness :
  exists r : float,
    evaluate "MAX" "INT64"
      [ Some {| monitoringpb.Value := Some (Int64Value 4) |};
        Some {| monitoringpb.Value := Some (Int64Value 9) |};
        Some {| monitoringpb.Value := Some (Int64Value (-2)) |} ] = Continue r
    /\ (0 <=? r)%float = true
    /\ (Go.float64_of_int 9 <=? r)%float = true.
Proof.
  destruct (max_is_greatest_value_or_zero "INT64"
              [ Some {| monitoringpb.Value := Some (Int64Value 4) |};
                Some {| monitoringpb.Value := Some (Int64Value 9) |};
                Some {| monitoringpb.Value := Some (Int64Value (-2)) |} ])
    as (r & E & Z & U & _).
  - repeat constructor.
  - exists r. split; [exact E |]. split; [exact Z |].
    exact (Forall_inv (Forall_inv_tail U)).
Defined.

(** X9. A NaN point makes MAX forget what came before: the result is that
    of the loop run over the following points from NaN, so it is NaN when
    the NaN point is the last one, and it is the value of the next point,
    even a smaller or a negative one, when exactly one point follows. *)
Theorem max_forgets_before_nan
  (valueType : string) (before after : list (option Point)) (p q : option Point) :
  is_nan (getFloatValue valueType (GetValue p)) = true ->
  evaluate "MAX" valueType (before ++ p :: after)
    = Continue (fold_left (max_step valueType) after nan)
  /\ evaluate "MAX" valueType (before ++ [p]) = Continue nan
  /\ evaluate "MAX" valueType (before ++ [p; q])
     = Continue (getFloatValue valueType (GetValue q)).
Proof.
  intros H.
  assert (F : forall l, evaluate "MAX" valueType (before ++ p :: l)
                        = Continue (fold_left (max_step valueType) l nan)).
  { intros l. rewrite evaluate_MAX, fold_left_app. cbn [fold_left].
    now rewrite (max_step_nan valueType _ p H). }
  split; [apply F |]. split; [apply F |].
  rewrite F. cbn [fold_left]. now rewrite max_step_after_nan.
Qed.

Lemma max_forgets_before_nan_witness :
  evaluate "MAX" "DOUBLE"
    [ Some {| monitoringpb.Value := Some (DoubleValue 50%float) |};
      Some {| monitoringpb.Value := Some (DoubleValue nan) |};
      Some {| monitoringpb.Value := Some (DoubleValue (-3)%float) |} ]
  = Continue (-3)%float.
Proof.
  apply (max_forgets_before_nan "DOUBLE"
           [ Some {| monitoringpb.Value := Some (DoubleValue 50%float) |} ] []
           (Some {| monitoringpb.Value := Some (DoubleValue nan) |})
           (Some {| monitoringpb.Value := Some (DoubleValue (-3)%float) |})).
  reflexivity.
Defined.

(** X10. NaN absorbs SUM: a series with a NaN point sums to NaN. *)
Theorem sum_with_nan_is_nan (valueType : string) (points : list (option Point)) :
  Exists (fun p => is_nan (getFloatValue valueType (GetValue p)) = true) points ->
  evaluate "SUM" valueType points = Continue nan.
Proof.
  intros H. rewrite evaluate_SUM. f_equal. generalize 0%float.
  induction H as [p ps Hp | p ps _ IH]; intros ret; cbn [fold_left].
  - unfold sum_step at 2. rewrite (is_nan_eq _ Hp), add_nan_r.
    apply sum_fold_nan.
  - apply IH.
Qed.

Lemma sum_with_nan_is_nan_witness :
  evaluate "SUM" "DOUBLE"
    [ Some {| monitoringpb.Value := Some (DoubleValue 1%float) |};
      Some {| monitoringpb.Value := Some (DoubleValue nan) |};
      Some {| monitoringpb.Value := Some (DoubleValue 2%float) |} ] = Continue nan.
Proof.
  apply (sum_with_nan_is_nan "DOUBLE"
           [ Some {| monitoringpb.Value := Some (DoubleValue 1%float) |};
             Some {| monitoringpb.Value := Some (DoubleValue nan) |};
             Some {| monitoringpb.Value := Some (DoubleValue 2%float) |} ]).
  apply Exists_cons_tl, Exists_cons_hd. reflexivity.
Defined.

(** ** The whole run *)

Section WholeRun.

Variable opts : Options.

Lemma evaluate_never_exits (valueType : string) (points : list (option Point)) (e : Exited) :
  evaluate (Evalution opts) valueType points <> Exit e.
Proof.
  unfold evaluate.
  destruct (String.eqb (Evalution opts) "LAST"); [destruct points |];
    [| | destruct (String.eqb (Evalution opts) "SUM");
         [| destruct (String.eqb (Evalution opts) "MAX")]];
    discriminate.
Qed.

Lemma evaluate_panics (valueType : string) (points : list (option Point)) :
  evaluate (Evalution opts) valueType points = Panic ->
  Evalution opts = "LAST" /\ points = [].
Proof.
  unfold evaluate.
  destruct (String.eqb_spec (Evalution opts) "LAST") as [L | L].
  - destruct points; [now split | discriminate].
  - destruct (String.eqb (Evalution opts) "SUM");
      [| destruct (String.eqb (Evalution opts) "MAX")]; discriminate.
Qed.


(** Series that all aggregate give their metrics in order. *)
Lemma fetch_groups_values (groups : list TimeSeries) (rest : list Next) :
  Forall (fun g => Evalution opts = "LAST" -> Points g <> []) groups ->
  forall (metrics : list Metric) (length : Z),
  exists values : list float,
    Forall2 (fun g x => evaluate (Evalution opts) (ValueType_String (ValueType_ g)) (Points g)
                        = Continue x) groups values
    /\ fetch opts (map Resp groups ++ rest) metrics length
       = fetch opts rest
           (metrics ++ map (fun gx => metric_of (fst gx) (snd gx)) (combine groups values))
           (length + total_points groups).
Proof.
  induction 1 as [| g gs Hg _ IH]; intros metrics length.
  - exists []. split; [constructor |]. cbn. now rewrite app_nil_r, Z.add_0_r.
  - destruct (evaluate (Evalution opts) (ValueType_String (ValueType_ g)) (Points g))
      as [x | e |] eqn:E.
    + destruct (IH (metrics ++ [metric_of g x])%list
                   (length + Z.of_nat (List.length (Points g)))) as (vs & F & Hf).
      exists (x :: vs). split; [now constructor |].
      cbn [map app combine fst snd]. rewrite (fetch_step opts g x _ _ _ E).
      fold (metric_of g x). rewrite Hf, <- app_assoc. cbn [app].
      f_equal. unfold total_points. cbn [fold_right]. lia.
    + now elim (evaluate_never_exits _ _ _ E).
    + destruct (evaluate_panics _ _ E) as [L P]. now elim (Hg L).
Qed.

End WholeRun.

(** X11. When no series makes [evaluate] panic and the iterator returns
    no error, the fetch loop gathers exactly one metric per series, in the
    order of the series: its name is the series' resolved label, its value
    what [evaluate] returns for the series, even for a series without
    points; with at least one point in total the run ends in the threshold
    evaluation of these metrics. *)
Theorem one_metric_per_series (opts : Options) (groups : list TimeSeries) :
  Forall (fun g => Evalution opts = "LAST" -> Points g <> []) groups ->
  exists values : list float,
    Forall2 (fun g x => evaluate (Evalution opts) (ValueType_String (ValueType_ g)) (Points g)
                        = Continue x) groups values
    /\ fetch opts (map Resp groups) [] 0
       = Continue (map (fun gx => {| Name := metric_name_of (Labels (fst gx));
                                     Value := snd gx |}) (combine groups values),
                   total_points groups)
    /\ (total_points groups <> 0 ->
        main opts (map Resp groups)
        = Exit (report opts
                  (map (fun gx => {| Name := metric_name_of (Labels (fst gx));
                                     Value := snd gx |}) (combine groups values)))).
Proof.
  intros H.
  destruct (fetch_groups_values opts groups [] H [] 0) as (vs & F & E).
  rewrite app_nil_r in E. cbn [fetch app] in E. rewrite Z.add_0_l in E.
  exists vs. split; [exact F |]. split; [exact E |].
  intros T. unfold main, main_with.
  change (fun gx : TimeSeries * float =>
            {| Name := metric_name_of (Labels (fst gx)); Value := snd gx |})
    with (fun gx : TimeSeries * float => metric_of (fst gx) (snd gx)).
  rewrite E. cbn [bind].
  destruct (Z.eqb_spec (total_points groups) 0); [contradiction | reflexivity].
Qed.

Lemma one_metric_per_series_witness :
  let g1 := {| ValueType_ := INT64;
               Points := [Some {| monitoringpb.Value := Some (Int64Value 3) |}];
               Labels := [("project_id", "p"); ("instance_id", "a")] |} in
  let g2 := {| ValueType_ := INT64; Points := []; Labels := [("zone", "b")] |} in
  let opts := {| Evalution := "SUM"; Critical := 10%float; Warning := 5%float |} in
  exists values : list float,
    fetch opts [Resp g1; Resp g2] [] 0
    = Continue (map (fun gx => {| Name := metric_name_of (Labels (fst gx));
                                  Value := snd gx |}) (combine [g1; g2] values), 1).
Proof.
  cbv zeta.
  destruct (one_metric_per_series
              {| Evalution := "SUM"; Critical := 10%float; Warning := 5%float |}
              [ {| ValueType_ := INT64;
                   Points := [Some {| monitoringpb.Value := Some (Int64Value 3) |}];
                   Labels := [("project_id", "p"); ("instance_id", "a")] |};
                {| ValueType_ := INT64; Points := []; Labels := [("zone", "b")] |} ])
    as (vs & _ & E & _).
  - repeat constructor; discriminate.
  - exists vs. exact E.
Defined.

Lemma evaluate_unsupported_type
  (policy : string) (t : ValueType) (points : list (option Point)) (x : float) :
  In t [VALUE_TYPE_UNSPECIFIED; BOOL; STRING; MONEY] ->
  evaluate policy (ValueType_String t) points = Continue x -> x = 0%float.
Proof.
  intros Ht.
  assert (Z0 : forall v, getFloatValue (ValueType_String t) v = 0%float).
  { intros v. destruct Ht as [<- | [<- | [<- | [<- | []]]]]; reflexivity. }
  assert (S : fold_left (sum_step (ValueType_String t)) points 0%float = 0%float).
  { induction points as [| p ps IH]; cbn [fold_left]; [reflexivity |].
    unfold sum_step at 2. rewrite Z0. exact IH. }
  assert (M : fold_left (max_step (ValueType_String t)) points 0%float = 0%float).
  { clear S. induction points as [| p ps IH]; cbn [fold_left]; [reflexivity |].
    unfold max_step at 2. rewrite Z0. exact IH. }
  unfold evaluate.
  destruct (String.eqb policy "LAST").
  - destruct points as [| p ps]; [discriminate |]. rewrite Z0. congruence.
  - destruct (String.eqb policy "SUM"); [rewrite S; congruence |].
    destruct (String.eqb policy "MAX"); [rewrite M; congruence | congruence].
Qed.

Section Diagnosed.

Variable d : Diagnostics.
Variable opts : Options.



End Diagnosed.


(** With [-v] and two series, the second without points, under LAST: the
    diagnostics of both series are written, then the run panics. *)
Example program_verbose_trace :
  let d := {| Verbose := [true]; show_Options := "{opts}";
              show_Metric := fun _ => "metric"; show_Resource := fun _ => "resource";
              show_float64 := fun _ => "7"; show_metrics := fun _ => "[]" |} in
  let q := {| Query.Project := "p"; Query.Metric := "m"; Query.Filter := "";
              Query.Delay := 4; Query.Period := 5 |} in
  let g1 := {| ValueType_ := INT64;
               Points := [Some {| monitoringpb.Value := Some (Int64Value 7) |}];
               Labels := [("zone", "a")] |} in
  let g2 := {| ValueType_ := INT64; Points := []; Labels := [("zone", "b")] |} in
  let nl := Go.newline in
  program d q {| Evalution := "LAST"; Critical := 0%float; Warning := 0%float |}
          (Ready [Resp g1; Resp g2])
  = Panics ("{opts}" ++ nl ++ "metric.type = " ++ dquote ++ "m" ++ dquote ++ " " ++ nl
            ++ "metric" ++ nl ++ "resource" ++ nl ++ "7" ++ nl
            ++ "metric" ++ nl ++ "resource" ++ nl)
  /\ program d q {| Evalution := "SUM"; Critical := 5%float; Warning := 0%float |}
             (Ready [Resp g1])
  = Exits ("{opts}" ++ nl ++ "metric.type = " ++ dquote ++ "m" ++ dquote ++ " " ++ nl
           ++ "metric" ++ nl ++ "resource" ++ nl ++ "7" ++ nl ++ "[]" ++ nl
           ++ "CRITICAL - a SUM value: 7 over 5|a=7.000000;0;5 " ++ nl) 2.
Proof. cbv zeta. split; vm_compute; reflexivity. Qed.

(** X13. Series of a value type the normalizer does not support (BOOL,
    STRING, MONEY, unspecified) aggregate to 0.0 under every policy, so a
    response made of such series, with at least one point and no panic, is
    reported OK with the message "Everything is OK", whatever the
    thresholds. *)
Theorem unsupported_value_types_report_ok (opts : Options) (groups : list TimeSeries) :
  Forall (fun g => In (ValueType_ g) [VALUE_TYPE_UNSPECIFIED; BOOL; STRING; MONEY]) groups ->
  Forall (fun g => Evalution opts = "LAST" -> Points g <> []) groups ->
  total_points groups <> 0 ->
  exists perf : string,
    main opts (map Resp groups)
    = Exit {| stdout := "OK - Everything is OK|" ++ perf ++ Go.newline; exit_code := 0 |}.
Proof.
  intros Ht Hp T.
  destruct (fetch_groups_values opts groups [] Hp [] 0) as (vs & F & E).
  rewrite app_nil_r in E. cbn [fetch app] in E. rewrite Z.add_0_l in E.
  set (ms := map (fun gx => metric_of (fst gx) (snd gx)) (combine groups vs)) in E.
  assert (Q : Forall (fun m => (Value m <=? 0)%float = true \/ is_nan (Value m) = true) ms).
  { subst ms. clear E T Hp. revert Ht.
    induction F as [| g x gs xs Hx _ IH]; intros Ht; cbn [combine map]; [constructor |].
    constructor.
    - left. cbn [metric_of Value fst snd].
      rewrite (evaluate_unsupported_type _ _ _ _ (Forall_inv Ht) Hx). reflexivity.
    - apply IH. exact (Forall_inv_tail Ht). }
  assert (B : forall limit, existsb (fun m => breaches limit (Value m)) ms = false).
  { intros limit. clear E. induction Q as [| m l Hm _ IH]; cbn [existsb]; [reflexivity |].
    now rewrite (no_breach_at_most_zero limit (Value m) Hm), IH. }
  destruct (quiet_fold opts ms init_verdict (B _) (B _)) as [S M].
  exists (String.concat "" (map (fun m => perf_token opts (Name m) (Value m)) ms)).
  unfold main, main_with. rewrite E. cbn [bind].
  destruct (Z.eqb_spec (total_points groups) 0); [contradiction |].
  unfold report, output. fold (verdict_of opts ms) in S, M.
  rewrite S, M. unfold verdict_of. rewrite perfdata_fold. reflexivity.
Qed.

Lemma unsupported_value_types_report_ok_witness :
  let g := {| ValueType_ := BOOL;
              Points := [Some {| monitoringpb.Value := Some (BoolValue true) |}];
              Labels := [("instance_id", "up")] |} in
  let opts := {| Evalution := "LAST"; Critical := 1%float; Warning := 0.5%float |} in
  exists perf : string,
    main opts [Resp g]
    = Exit {| stdout := "OK - Everything is OK|" ++ perf ++ Go.newline; exit_code := 0 |}.
Proof.
  cbv zeta.
  apply (unsupported_value_types_report_ok
           {| Evalution := "LAST"; Critical := 1%float; Warning := 0.5%float |}
           [ {| ValueType_ := BOOL;
                Points := [Some {| monitoringpb.Value := Some (BoolValue true) |}];
                Labels := [("instance_id", "up")] |} ]).
  - constructor; [right; left; reflexivity | constructor].
  - repeat constructor. discriminate.
  - discriminate.
Defined.

(** ** The request *)

Section Wrap.

Lemma wrap_small (z : Z) : Int64.in_range z -> Int64.wrap z = z.
Proof.
  unfold Int64.in_range, Int64.wrap. intros H.
  rewrite Z.mod_small; [lia |].
  change (2 ^ 64) with (2 * 2 ^ 63). lia.
Qed.

Lemma wrap_in_range (z : Z) : Int64.in_range (Int64.wrap z).
Proof.
  unfold Int64.in_range, Int64.wrap.
  pose proof (Z.mod_pos_bound (z + 2 ^ 63) (2 ^ 64) eq_refl) as B.
  change (2 ^ 64) with (2 * 2 ^ 63) in *. lia.
Qed.

(** A wrapped value differs from the exact one by a multiple of 2^64. *)
Lemma wrap_eq (z : Z) : exists k : Z, Int64.wrap z = z + k * 2 ^ 64.
Proof.
  exists (- ((z + 2 ^ 63) / 2 ^ 64)). unfold Int64.wrap.
  rewrite Z.mod_eq by discriminate. lia.
Qed.

Lemma wrap_shift (z k : Z) : Int64.wrap (z + k * 2 ^ 64) = Int64.wrap z.
Proof.
  unfold Int64.wrap.
  replace (z + k * 2 ^ 64 + 2 ^ 63) with (z + 2 ^ 63 + k * 2 ^ 64) by lia.
  now rewrite Z_mod_plus_full.
Qed.

End Wrap.

(** X14. The requested interval ends [Delay] minutes before now and is
    [Period] minutes long: in [int64] arithmetic the end minus the start is
    always [Period * 60], and for a clock and options of ordinary size no
    operation wraps, so the end is [now - 60 * Delay], the start is
    [now - 60 * (Delay + Period)], and the start is not after the end exactly
    when [Period] is not negative. *)
Theorem request_window (q : Query.Options) (unixNow : Z) :
  let i := Request.Interval (request_of q unixNow) in
  Int64.in_range (Request.EndTime i)
  /\ Int64.in_range (Request.StartTime i)
  /\ Int64.sub (Request.EndTime i) (Request.StartTime i) = Int64.mul (Query.Period q) 60
  /\ (0 <= unixNow < 2 ^ 62 ->
      - 2 ^ 50 <= Query.Delay q <= 2 ^ 50 ->
      - 2 ^ 50 <= Query.Period q <= 2 ^ 50 ->
      Request.EndTime i = unixNow - 60 * Query.Delay q
      /\ Request.StartTime i = unixNow - 60 * (Query.Delay q + Query.Period q)
      /\ (Request.StartTime i <= Request.EndTime i <-> 0 <= Query.Period q)).
Proof.
  cbv zeta. cbn [request_of Request.Interval Request.EndTime Request.StartTime].
  split; [apply wrap_in_range |]. split; [apply wrap_in_range |]. split.
  - unfold Int64.sub, Int64.mul, Int64.add.
    destruct (wrap_eq (Query.Delay q * 60)) as [k1 ->].
    destruct (wrap_eq (Query.Delay q + Query.Period q)) as [k2 ->].
    destruct (wrap_eq ((Query.Delay q + Query.Period q + k2 * 2 ^ 64) * 60)) as [k3 ->].
    destruct (wrap_eq (unixNow - (Query.Delay q * 60 + k1 * 2 ^ 64))) as [k4 ->].
    destruct (wrap_eq (unixNow - ((Query.Delay q + Query.Period q + k2 * 2 ^ 64) * 60
                                  + k3 * 2 ^ 64))) as [k5 ->].
    rewrite <- (wrap_shift (Query.Period q * 60) (60 * k2 + k3 - k1 + k4 - k5)).
    f_equal. lia.
  - intros Hn Hd Hp.
    assert (P50 : 2 ^ 50 = 1125899906842624) by reflexivity.
    assert (P62 : 2 ^ 62 = 4611686018427387904) by reflexivity.
    assert (P63 : 2 ^ 63 = 9223372036854775808) by reflexivity.
    unfold Int64.sub, Int64.mul, Int64.add.
    rewrite (wrap_small (Query.Delay q * 60)) by (unfold Int64.in_range; lia).
    rewrite (wrap_small (Query.Delay q + Query.Period q)) by (unfold Int64.in_range; lia).
    rewrite (wrap_small ((Query.Delay q + Query.Period q) * 60))
      by (unfold Int64.in_range; lia).
    rewrite !wrap_small by (unfold Int64.in_range; lia).
    lia.
Qed.

Lemma request_window_witness :
  let q := {| Query.Project := "p"; Query.Metric := "m"; Query.Filter := "";
              Query.Delay := 4; Query.Period := 5 |} in
  let i := Request.Interval (request_of q 1700000000) in
  Request.EndTime i = 1699999760 /\ Request.StartTime i = 1699999460.
Proof.
  cbv zeta.
  destruct (request_window
              {| Query.Project := "p"; Query.Metric := "m"; Query.Filter := "";
                 Query.Delay := 4; Query.Period := 5 |} 1700000000)
    as (_ & _ & _ & H).
  cbv zeta in H.
  destruct H as (E & S & _); [split; [discriminate | reflexivity] | split; discriminate
                             | split; discriminate |].
  split; [exact E | exact S].
Defined.

(** X15. The filter always begins with the metric clause; an empty
    [Filter] option adds nothing and a non-empty one is appended as given
    after "AND ".  Nothing is escaped: a metric name that contains a double
    quote yields the same filter as a shorter metric name with an extra
    clause. *)
Theorem filter_is_built_verbatim (project metric extra : string) (delay period : Z) :
  let q := fun m f => {| Query.Project := project; Query.Metric := m; Query.Filter := f;
                         Query.Delay := delay; Query.Period := period |} in
  filter_of (q metric "") = "metric.type = " ++ dquote ++ metric ++ dquote ++ " "
  /\ (extra <> "" ->
      filter_of (q metric extra) = filter_of (q metric "") ++ "AND " ++ extra ++ " ")
  /\ filter_of (q (metric ++ dquote ++ " AND " ++ extra) "")
     = filter_of (q metric (extra ++ dquote)).
Proof.
  cbv zeta. unfold filter_of. cbn [Query.Metric Query.Filter String.length Nat.eqb].
  split; [reflexivity |]. split.
  - intros H. destruct extra as [| c e]; [congruence | reflexivity].
  - assert (N : Nat.eqb (String.length (extra ++ dquote)) 0 = false)
      by (destruct extra; reflexivity).
    rewrite N.
    change ("metric.type = " ++ dquote ++ (metric ++ dquote ++ " AND " ++ extra) ++ dquote ++ " ")
      with ("metric.type = " ++ dquote
            ++ ((metric ++ dquote ++ " AND " ++ extra) ++ dquote ++ " ")).
    change (("metric.type = " ++ dquote ++ metric ++ dquote ++ " ")
            ++ "AND " ++ (extra ++ dquote) ++ " ")
      with ("metric.type = " ++ dquote
            ++ ((metric ++ dquote ++ " ") ++ "AND " ++ (extra ++ dquote) ++ " ")).
    f_equal. f_equal.
    rewrite !append_assoc. reflexivity.
Qed.
